(** * Session identity, chat submission and image attachment logic of the
      product-assistant frontend

    A shallow embedding of the client-side logic in
    - [frontend/lib/chatApi.js]               (module [ChatApi]),
    - [frontend/src/services/api.js]          (module [Api]),
    - [frontend/src/components/ImageUpload.jsx] (module [ImageUpload]),
    - [frontend/components/chat/ChatInput.jsx] and
      [frontend/components/chat/ProductChatWidget.jsx] (module [Widget]),
    - [frontend/src/pages/ProductDetailPage.jsx] (module [Page]).

    Host facilities (the clock, [Math.random], [crypto.randomUUID],
    [localStorage], [fetch], [FileReader]) are inputs of the functions that
    use them: every function below is a pure function of the component state
    and of what the host answered. *)

From Stdlib Require Import String Ascii List ZArith NArith Lia Bool.
From Stdlib Require Import Decimal DecimalString DecimalN.
From stdpp Require Import base option list gmap strings.
Import ListNotations.

Local Open Scope string_scope.
Local Open Scope list_scope.

(** ** JavaScript values and control flow *)

Module JS.

(** Exceptions that the modelled code can meet. *)
Inductive exn :=
| SecurityError            (* storage access denied by the browser *)
| QuotaExceededError       (* [setItem] on a full or write-protected store *)
| TypeError                (* [fetch] rejected, property read on null *)
| SyntaxError              (* [response.json()] on a malformed body *)
| Error (msg : string).    (* [throw new Error(msg)] *)

(** The result of running a piece of code: a value, or a thrown exception. *)
Inductive outcome (A : Type) :=
| Ret (a : A)
| Throw (e : exn).
Arguments Ret {A} a.
Arguments Throw {A} e.

Definition bind {A B} (m : outcome A) (k : A -> outcome B) : outcome B :=
  match m with
  | Ret a => k a
  | Throw e => Throw e
  end.

(** [try { m } catch (e) { h e }] *)
Definition try_catch {A} (m : outcome A) (h : exn -> outcome A) : outcome A :=
  match m with
  | Ret a => Ret a
  | Throw e => h e
  end.

(** Strings are sequences of code units; the model covers the code units
    below 256. The white space and line terminators of ECMAScript in that
    range: TAB, LF, VT, FF, CR, SP and NBSP. *)
Definition is_white_space (c : ascii) : bool :=
  let n := N_of_ascii c in
  ((9 <=? n) && (n <=? 13) || (n =? 32) || (n =? 160))%N.

(** [String.prototype.trimStart] *)
Fixpoint trimStart (s : string) : string :=
  match s with
  | EmptyString => EmptyString
  | String c s' => if is_white_space c then trimStart s' else s
  end.

(** [String.prototype.trimEnd] *)
Fixpoint trimEnd (s : string) : string :=
  match s with
  | EmptyString => EmptyString
  | String c s' =>
      match trimEnd s' with
      | EmptyString => if is_white_space c then EmptyString else String c EmptyString
      | t => String c t
      end
  end.

(** [String.prototype.trim] *)
Definition trim (s : string) : string := trimEnd (trimStart s).

(** Truthiness of a string: only the empty string is falsy. *)
Definition truthy (s : string) : bool :=
  match s with EmptyString => false | String _ _ => true end.

(** Truthiness of a value that is a string or [null]. *)
Definition truthy_opt (o : option string) : bool :=
  match o with Some s => truthy s | None => false end.

(** Truthiness of an object reference or [null]. *)
Definition present {A} (o : option A) : bool :=
  match o with Some _ => true | None => false end.

(** [s.startsWith(p)] *)
Definition startsWith (s p : string) : bool := String.prefix p s.

(** [s.substr(start, len)] for non-negative arguments. *)
Definition substr (s : string) (start len : nat) : string :=
  String.substring start len s.

(** Template-literal rendering of a non-negative integer. *)
Definition string_of_N (n : N) : string :=
  NilZero.string_of_uint (N.to_uint n).

End JS.
Export JS.

(** ** Files and multipart forms *)

(** The fields of a DOM [File] that the code reads. *)
Record File := mkFile {
  file_name : string;
  file_type : string;      (* MIME type, [file.type] *)
  file_size : N            (* bytes, [file.size] *)
}.

Global Instance File_eq_dec : EqDecision File.
Proof. solve_decision. Defined.

(** A [FormData] value is the list of appended entries, in append order;
    the same name may be appended several times. *)
Inductive form_value :=
| FText (s : string)
| FFile (f : File).

Global Instance form_value_eq_dec : EqDecision form_value.
Proof. solve_decision. Defined.

Definition FormData := list (string * form_value).

(** [formData.append(name, v)] *)
Definition append (fd : FormData) (name : string) (v : form_value) : FormData :=
  fd ++ [(name, v)].

(** [files.forEach(f => formData.append(name, f))] *)
Definition append_files (fd : FormData) (name : string) (files : list File) : FormData :=
  fold_left (fun acc f => append acc name (FFile f)) files fd.

(** [formData.getAll(name)] *)
Definition getAll (fd : FormData) (name : string) : list form_value :=
  map snd (List.filter (fun e => bool_decide (fst e = name)) fd).

(** The files carried by a form under the field [images]. *)
Definition carried_images (fd : FormData) : list File :=
  flat_map (fun e => match e with
                     | ("images", FFile f) => [f]
                     | _ => []
                     end) fd.

(** A request handed to [fetch]. *)
Record request := mkRequest {
  req_url : string;
  req_method : string;
  req_body : FormData
}.

Inductive Mode := PRE_PURCHASE | POST_PURCHASE.

Global Instance Mode_eq_dec : EqDecision Mode.
Proof. solve_decision. Defined.

Definition mode_string (m : Mode) : string :=
  match m with
  | PRE_PURCHASE => "PRE_PURCHASE"
  | POST_PURCHASE => "POST_PURCHASE"
  end.

(** ** The host: persistent storage and the network *)

Module Storage.

(** The storage area behind [localStorage]. Besides its items the model
    records the two ways in which a browser makes it unavailable: every
    access is refused (storage blocked for the site), or writes are
    refused (no quota). *)
Record LocalStorage := mkLocalStorage {
  items : gmap string string;
  access_denied : bool;
  quota_exceeded : bool
}.

(** [localStorage.getItem(key)]: the stored string, or [null]. *)
Definition getItem (key : string) (ls : LocalStorage) : outcome (option string) :=
  if access_denied ls then Throw SecurityError
  else Ret (items ls !! key).

(** [localStorage.setItem(key, value)] *)
Definition setItem (key value : string) (ls : LocalStorage)
  : outcome unit * LocalStorage :=
  if access_denied ls then (Throw SecurityError, ls)
  else if quota_exceeded ls then (Throw QuotaExceededError, ls)
  else (Ret tt, mkLocalStorage (<[key := value]> (items ls))
               (access_denied ls) (quota_exceeded ls)).

(** A working store holding the given items. *)
Definition working (m : gmap string string) : LocalStorage :=
  mkLocalStorage m false false.

End Storage.
Export Storage.

(** Where the code runs: [typeof window === 'undefined'] on the server,
    a browser with its storage area otherwise. *)
Inductive host :=
| Server
| Browser (ls : LocalStorage).

(** What [fetch] produced: a rejection (the backend is unreachable), or a
    response with its [ok] flag, status and parsed body ([None] when
    [response.json()] rejects). *)
Inductive fetch_result (B : Type) :=
| Rejected
| Response (ok : bool) (status : N) (json : option B).
Arguments Rejected {B}.
Arguments Response {B} ok status json.

(** The body of a chat reply: its [response] and [message] properties,
    either of which may be missing. *)
Record chat_reply := mkReply {
  reply_response : option string;
  reply_message : option string
}.

(** One message of a conversation as the product page keeps it and as the
    history endpoint returns it ([imagePreviews] is empty for a message
    that has none). *)
Record turn := mkTurn {
  role : string;
  content : string;
  imagePreviews_of : list string
}.

(** ** frontend/lib/chatApi.js *)

Module ChatApi.

(** [process.env.NEXT_PUBLIC_BACKEND_URL || 'http://localhost:8000'] *)
Definition BACKEND_URL (env_url : option string) : string :=
  if truthy_opt env_url then default "" env_url else "http://localhost:8000".

Record params := mkParams {
  productId : string;
  message : string;
  sessionId : string;
  language : option string;     (* default ['en'] *)
  mode : option Mode;           (* default ['PRE_PURCHASE'] *)
  images : option (list File)   (* default [[]] *)
}.

(** The form and request built by [sendChatMessage]. *)
Definition sendChatMessage_form (p : params) : FormData :=
  let formData := [] in
  let formData := append formData "model_id" (FText (productId p)) in
  let formData := append formData "message" (FText (message p)) in
  let formData := append formData "conversation_id" (FText (sessionId p)) in
  let formData := append formData "mode"
                    (FText (mode_string (default PRE_PURCHASE (mode p)))) in
  let formData := append formData "language" (FText (default "en" (language p))) in
  append_files formData "images" (default [] (images p)).

Definition sendChatMessage_request (env_url : option string) (p : params) : request :=
  mkRequest (BACKEND_URL env_url +:+ "/chat") "POST" (sendChatMessage_form p).

(** The rest of [sendChatMessage], once [fetch] has settled. The [catch]
    block logs and rethrows. *)
Definition sendChatMessage_result (r : fetch_result chat_reply) : outcome chat_reply :=
  try_catch
    (match r with
     | Rejected => Throw TypeError
     | Response ok status json =>
         if negb ok then
           Throw (Error ("HTTP error! status: " +:+ string_of_N status))
         else match json with
              | Some body => Ret body
              | None => Throw SyntaxError
              end
     end)
    (fun error => Throw error).

(** The two host readings that [generateSessionId] takes. *)
Record entropy := mkEntropy {
  now : N;               (* [Date.now()], milliseconds *)
  random36 : string      (* [Math.random().toString(36)] *)
}.

Definition generateSessionId (e : entropy) : string :=
  "session_" +:+ string_of_N (now e) +:+ "_" +:+ substr (random36 e) 2 9.

Definition getSessionId (productId : string) (e : entropy) (h : host)
  : outcome string * host :=
  match h with
  | Browser ls =>
      let key := "chat_session_" +:+ productId in
      match getItem key ls with
      | Throw x => (Throw x, h)
      | Ret sessionId =>
          if negb (truthy_opt sessionId) then
            let sessionId := generateSessionId e in
            match setItem key sessionId ls with
            | (Throw x, ls') => (Throw x, Browser ls')
            | (Ret _, ls') => (Ret sessionId, Browser ls')
            end
          else (Ret (default "" sessionId), h)
      end
  | Server => (Ret (generateSessionId e), h)
  end.

End ChatApi.

(** ** frontend/src/services/api.js *)

Module Api.

Definition API_BASE : string := "http://localhost:8000".

(** The fourth argument of [sendMessage]: an array of files, a single
    file, or [null]/[undefined]. *)
Inductive image_files :=
| FileArray (l : list File)
| SingleFile (f : File)
| NoFiles.

(** [Array.isArray(imageFiles) ? imageFiles : (imageFiles ? [imageFiles] : [])] *)
Definition images_of (imageFiles : image_files) : list File :=
  match imageFiles with
  | FileArray l => l
  | SingleFile f => [f]
  | NoFiles => []
  end.

(** [message || ''] *)
Definition or_empty (message : string) : string :=
  if truthy message then message else "".

(** The form built by [sendMessage]. *)
Definition sendMessage_form (message modelId : string) (mode : Mode)
    (imageFiles : image_files) (sessionId : option string) : FormData :=
  let images := images_of imageFiles in
  if (0 <? length images)%nat then
    let formData := [] in
    let formData := append formData "message" (FText (or_empty message)) in
    let formData := append formData "model_id" (FText modelId) in
    let formData := append formData "mode" (FText (mode_string mode)) in
    let formData :=
      if truthy_opt sessionId
      then append formData "session_id" (FText (default "" sessionId))
      else formData in
    append_files formData "images" images
  else
    let formData := [] in
    let formData := append formData "message" (FText (or_empty message)) in
    let formData := append formData "model_id" (FText modelId) in
    let formData := append formData "mode" (FText (mode_string mode)) in
    if truthy_opt sessionId
    then append formData "conversation_id" (FText (default "" sessionId))
    else formData.

Definition sendMessage_request (message modelId : string) (mode : Mode)
    (imageFiles : image_files) (sessionId : option string) : request :=
  mkRequest (API_BASE +:+ "/chat") "POST"
    (sendMessage_form message modelId mode imageFiles sessionId).

(** The rest of [sendMessage], once [fetch] has settled. *)
Definition sendMessage_result (r : fetch_result chat_reply) : outcome chat_reply :=
  match r with
  | Rejected => Throw TypeError
  | Response ok _ json =>
      if negb ok then Throw (Error "Failed to send message")
      else match json with
           | Some body => Ret body
           | None => Throw SyntaxError
           end
  end.

(** The body of a history response. [messages] may be missing. *)
Record history := mkHistory {
  session_id : string;
  messages : option (list turn)
}.

(** [getConversationHistory(sessionId)], given what
    [fetch(API_BASE/history/sessionId)] produced. *)
Definition getConversationHistory (sessionId : string)
    (r : fetch_result history) : outcome history :=
  match r with
  | Rejected => Throw TypeError
  | Response ok _ json =>
      if negb ok then
        Ret (mkHistory sessionId (Some []))
      else match json with
           | Some body => Ret body
           | None => Throw SyntaxError
           end
  end.

End Api.

(** ** frontend/src/components/ImageUpload.jsx *)

Module ImageUpload.

(** What [processFile] does, in order. *)
Inductive effect :=
| Alert (msg : string)          (* [alert(msg)] *)
| ReadPreview (f : File)        (* [reader.readAsDataURL(file)] *)
| OnImageSelect (f : File).     (* [onImageSelect(file)]: hand over to the parent,
                                   which posts it to the analysis endpoint *)

Definition MAX_BYTES : N := 10 * 1024 * 1024.

Definition processFile (file : File) : list effect :=
  if negb (startsWith (file_type file) "image/") then
    [Alert "Please upload an image file"]
  else if (MAX_BYTES <? file_size file)%N then
    [Alert "File size must be less than 10MB"]
  else
    [ReadPreview file; OnImageSelect file].

(** [handleFileChange] and [handleDrop]: the first file, if any. *)
Definition handleFileChange (files : list File) : list effect :=
  match files with
  | file :: _ => processFile file
  | [] => []
  end.

End ImageUpload.

(** ** frontend/components/chat/ChatInput.jsx and ProductChatWidget.jsx *)

Module Widget.

(** State of [ChatInput]. *)
Record input_state := mkInput {
  message : string;
  selectedImage : option File
}.

(** The argument of [onSend]. *)
Record payload := mkPayload {
  p_message : string;
  p_image : option File
}.

(** [ChatInput.handleSubmit]: the new input state and the call of
    [onSend], if one is made. *)
Definition handleSubmit (i : input_state) : input_state * option payload :=
  if negb (truthy (trim (message i))) && negb (present (selectedImage i))
  then (i, None)
  else (mkInput "" None, Some (mkPayload (trim (message i)) (selectedImage i))).

(** [ChatInput.handleImageSelect], on the first chosen file if any. *)
Definition handleImageSelect (file : option File) (i : input_state) : input_state :=
  match file with
  | Some f =>
      if startsWith (file_type f) "image/"
      then mkInput (message i) (Some f)
      else i
  | None => i
  end.

(** A message shown by the widget. *)
Record shown := mkShown {
  text : string;
  isUser : bool
}.

(** State and props of [ProductChatWidget]. *)
Record state := mkState {
  product_id : string;
  language : string;
  mode : Mode;
  messages : list shown;
  isLoading : bool;
  sessionId : string
}.

Definition set_loading (b : bool) (s : state) : state :=
  mkState (product_id s) (language s) (mode s) (messages s) b (sessionId s).

Definition push (m : shown) (s : state) : state :=
  mkState (product_id s) (language s) (mode s) (messages s ++ [m])
          (isLoading s) (sessionId s).

(** [ProductChatWidget.handleSendMessage] up to its [await]: the new state
    and the request handed to [fetch], if any. *)
Definition handleSendMessage (env_url : option string) (p : payload) (s : state)
  : state * option request :=
  if negb (truthy (trim (p_message p))) && negb (present (p_image p))
  then (s, None)
  else
    let s1 := set_loading true (push (mkShown (p_message p) true) s) in
    (s1, Some (ChatApi.sendChatMessage_request env_url
                 (ChatApi.mkParams (product_id s) (p_message p) (sessionId s)
                    (Some (language s)) (Some (mode s))
                    (Some (match p_image p with Some f => [f] | None => [] end))))).

(** [response.response || response.message || 'I received your message.'] *)
Definition reply_text (r : chat_reply) : string :=
  if truthy_opt (reply_response r) then default "" (reply_response r)
  else if truthy_opt (reply_message r) then default "" (reply_message r)
  else "I received your message.".

(** The rest of [handleSendMessage] once the request has settled;
    [chat_error] is the translated text [t('chat.error')]. *)
Definition handleSendMessage_settled (chat_error : string)
    (r : fetch_result chat_reply) (s : state) : state :=
  let s1 :=
    match ChatApi.sendChatMessage_result r with
    | Ret response => push (mkShown (reply_text response) false) s
    | Throw _ => push (mkShown chat_error false) s
    end in
  set_loading false s1.

(** The widget with its input, and the requests it has handed to [fetch]. *)
Record world := mkWorld {
  input : input_state;
  widget : state;
  sent : list request;     (* oldest first *)
  answered : nat           (* how many of them have settled *)
}.

(** The [disabled] attributes in the markup of [ChatInput], which receives
    [disabled={isLoading}]. *)
Definition textarea_disabled (w : world) : bool := isLoading (widget w).
Definition submit_disabled (w : world) : bool :=
  isLoading (widget w)
  || (negb (truthy (trim (message (input w))))
      && negb (present (selectedImage (input w)))).

Inductive event :=
| TypeText (t : string)                 (* [onChange] of the textarea *)
| PressEnter                            (* [onKeyDown] Enter, no shift *)
| ClickSubmit                           (* submit button of the form *)
| ChooseFile (file : option File)       (* [onChange] of the file input *)
| RemoveImage                           (* the X button of the preview *)
| SetMode (m : Mode)
| Settled (r : fetch_result chat_reply). (* the oldest open request settles *)

(** [handleSubmit] followed by the [onSend] it triggers. *)
Definition submit (env_url : option string) (w : world) : world :=
  match handleSubmit (input w) with
  | (i, None) => mkWorld i (widget w) (sent w) (answered w)
  | (i, Some p) =>
      match handleSendMessage env_url p (widget w) with
      | (s, None) => mkWorld i s (sent w) (answered w)
      | (s, Some rq) => mkWorld i s (sent w ++ [rq]) (answered w)
      end
  end.

(** One event. A disabled control delivers no event. *)
Definition step (env_url : option string) (chat_error : string)
    (e : event) (w : world) : world :=
  match e with
  | TypeText t =>
      if textarea_disabled w then w
      else mkWorld (mkInput t (selectedImage (input w))) (widget w) (sent w) (answered w)
  | PressEnter =>
      if textarea_disabled w then w else submit env_url w
  | ClickSubmit =>
      if submit_disabled w then w else submit env_url w
  | ChooseFile file =>
      mkWorld (handleImageSelect file (input w)) (widget w) (sent w) (answered w)
  | RemoveImage =>
      mkWorld (mkInput (message (input w)) None) (widget w) (sent w) (answered w)
  | SetMode m =>
      let s := widget w in
      mkWorld (input w)
        (mkState (product_id s) (language s) m (messages s) (isLoading s) (sessionId s))
        (sent w) (answered w)
  | Settled r =>
      if (answered w <? length (sent w))%nat then
        mkWorld (input w) (handleSendMessage_settled chat_error r (widget w))
                (sent w) (S (answered w))
      else w
  end.

Definition run (env_url : option string) (chat_error : string)
    (evs : list event) (w : world) : world :=
  fold_left (fun w e => step env_url chat_error e w) evs w.

(** The widget as mounted for a product, with the session identifier that
    [getSessionId] returned. *)
Definition mounted (product sid language : string) : world :=
  mkWorld (mkInput "" None)
          (mkState product language PRE_PURCHASE [] false sid) [] 0.

Definition outstanding (w : world) : nat := length (sent w) - answered w.

End Widget.

(** ** frontend/src/pages/ProductDetailPage.jsx *)

Module Page.

Definition MAX_IMAGES : nat := 3.
Definition MAX_BYTES : N := 5 * 1024 * 1024.

(** The chat and upload state of [ProductDetailPage]. *)
Record state := mkState {
  modelId : string;                 (* route parameter *)
  mode : Mode;
  messages : list turn;
  inputMessage : string;
  isSending : bool;
  sessionId : option string;
  isLoadingHistory : bool;
  selectedImages : list File;
  imagePreviews : list string;
  uploadError : option string
}.

Definition setMode (v : Mode) (s : state) : state :=
  mkState (modelId s) v (messages s) (inputMessage s) (isSending s) (sessionId s)
    (isLoadingHistory s) (selectedImages s) (imagePreviews s) (uploadError s).
Definition setMessages (v : list turn) (s : state) : state :=
  mkState (modelId s) (mode s) v (inputMessage s) (isSending s) (sessionId s)
    (isLoadingHistory s) (selectedImages s) (imagePreviews s) (uploadError s).
Definition setInputMessage (v : string) (s : state) : state :=
  mkState (modelId s) (mode s) (messages s) v (isSending s) (sessionId s)
    (isLoadingHistory s) (selectedImages s) (imagePreviews s) (uploadError s).
Definition setIsSending (v : bool) (s : state) : state :=
  mkState (modelId s) (mode s) (messages s) (inputMessage s) v (sessionId s)
    (isLoadingHistory s) (selectedImages s) (imagePreviews s) (uploadError s).
Definition setSessionId (v : option string) (s : state) : state :=
  mkState (modelId s) (mode s) (messages s) (inputMessage s) (isSending s) v
    (isLoadingHistory s) (selectedImages s) (imagePreviews s) (uploadError s).
Definition setIsLoadingHistory (v : bool) (s : state) : state :=
  mkState (modelId s) (mode s) (messages s) (inputMessage s) (isSending s) (sessionId s)
    v (selectedImages s) (imagePreviews s) (uploadError s).
Definition setSelectedImages (v : list File) (s : state) : state :=
  mkState (modelId s) (mode s) (messages s) (inputMessage s) (isSending s) (sessionId s)
    (isLoadingHistory s) v (imagePreviews s) (uploadError s).
Definition setImagePreviews (v : list string) (s : state) : state :=
  mkState (modelId s) (mode s) (messages s) (inputMessage s) (isSending s) (sessionId s)
    (isLoadingHistory s) (selectedImages s) v (uploadError s).
Definition setUploadError (v : option string) (s : state) : state :=
  mkState (modelId s) (mode s) (messages s) (inputMessage s) (isSending s) (sessionId s)
    (isLoadingHistory s) (selectedImages s) (imagePreviews s) v.

(** The state after the first render for a product. *)
Definition initial (model : string) : state :=
  mkState model PRE_PURCHASE [] "" false None true [] [] None.

(** The session effect, up to the call of [loadConversationHistory];
    [uuid] is what [crypto.randomUUID()] returns if it is called. *)
Definition init_session (uuid : string) (ls : LocalStorage) (s : state)
  : outcome state * LocalStorage :=
  if negb (truthy (modelId s)) then (Ret s, ls)
  else
    let key := "session_" +:+ modelId s in
    match getItem key ls with
    | Throw x => (Throw x, ls)
    | Ret sid =>
        if negb (truthy_opt sid) then
          match setItem key uuid ls with
          | (Throw x, ls') => (Throw x, ls')
          | (Ret _, ls') => (Ret (setSessionId (Some uuid) s), ls')
          end
        else (Ret (setSessionId sid s), ls)
    end.

(** [loadConversationHistory(sid)], given what the history request
    produced: [try], [catch] (log and continue), [finally]. *)
Definition loadConversationHistory (sid : string) (r : fetch_result Api.history)
    (s : state) : outcome state :=
  let s1 := setIsLoadingHistory true s in
  let tried :=
    bind (Api.getConversationHistory sid r) (fun history =>
      match Api.messages history with
      | Some (m :: ms) => Ret (setMessages (m :: ms) s1)
      | _ => Ret s1
      end) in
  let caught := try_catch tried (fun _ => Ret s1) in
  bind caught (fun s2 => Ret (setIsLoadingHistory false s2)).

(** The guard at the head of [handleSendMessage]. *)
Definition send_blocked (s : state) : bool :=
  (negb (truthy (trim (inputMessage s))) && (length (selectedImages s) =? 0)%nat)
  || isSending s.

(** [userMessage || `📷 [${imagesToSend.length} image(s)]`] *)
Definition shown_content (userMessage : string) (imagesToSend : list File) : string :=
  if truthy userMessage then userMessage
  else "📷 [" +:+ string_of_N (N.of_nat (length imagesToSend)) +:+ " image(s)]".

(** [handleSendMessage] up to its [await]: the new state and the request
    handed to [fetch], if any. *)
Definition handleSendMessage (s : state) : state * option request :=
  if send_blocked s then (s, None)
  else
    let userMessage := trim (inputMessage s) in
    let imagesToSend := selectedImages s in
    let imagePreviewsToStore := imagePreviews s in
    let s1 := setUploadError None
                (setImagePreviews [] (setSelectedImages [] (setInputMessage "" s))) in
    let s2 := setMessages
                (messages s1 ++ [mkTurn "user" (shown_content userMessage imagesToSend)
                                        imagePreviewsToStore]) s1 in
    let s3 := setIsSending true s2 in
    (s3, Some (Api.sendMessage_request userMessage (modelId s) (mode s)
                 (Api.FileArray imagesToSend) (sessionId s))).

Definition apology : string :=
  "❌ Sorry, I encountered an error. Please try again.".

(** The rest of [handleSendMessage] once the request has settled. *)
Definition handleSendMessage_settled (r : fetch_result chat_reply) (s : state) : state :=
  let s1 :=
    match Api.sendMessage_result r with
    | Ret response =>
        setMessages (messages s ++ [mkTurn "assistant"
                                      (default "" (reply_response response)) []]) s
    | Throw _ =>
        setMessages (messages s ++ [mkTurn "assistant" apology []]) s
    end in
  setIsSending false s1.

(** The validation loop of [handleImageSelect]: the files kept and the
    upload error after the loop. *)
Fixpoint validate (filesToAdd validFiles : list File) (err : option string)
  : list File * option string :=
  match filesToAdd with
  | [] => (validFiles, err)
  | file :: rest =>
      if negb (startsWith (file_type file) "image/") then
        validate rest validFiles (Some "Only images are allowed (PNG, JPG, JPEG, WEBP)")
      else if (MAX_BYTES <? file_size file)%N then
        validate rest validFiles (Some "Each file must be less than 5MB")
      else
        validate rest (validFiles ++ [file]) err
  end.

(** [handleImageSelect] up to the creation of the previews: the new state
    and, when the previews are requested, the valid files whose previews
    the [then] callback is waiting for. *)
Definition handleImageSelect (files : list File) (s : state)
  : state * option (list File) :=
  if (length files =? 0)%nat then (s, None)
  else
    let remainingSlots := (Z.of_nat MAX_IMAGES - Z.of_nat (length (selectedImages s)))%Z in
    if (remainingSlots <=? 0)%Z then
      (setUploadError (Some ("Maximum " +:+ string_of_N (N.of_nat MAX_IMAGES)
                               +:+ " images allowed")) s, None)
    else
      let filesToAdd := firstn (Z.to_nat remainingSlots) files in
      let '(validFiles, err) := validate filesToAdd [] (uploadError s) in
      (setUploadError err s, Some validFiles).

(** The [then] callback of [handleImageSelect], run when all previews of
    [validFiles] have been read. *)
Definition previews_loaded (validFiles : list File) (previews : list string)
    (s : state) : state :=
  setUploadError None
    (setImagePreviews (imagePreviews s ++ previews)
       (setSelectedImages (selectedImages s ++ validFiles) s)).

(** [prev.filter((_, i) => i !== index)] *)
Fixpoint remove_at {A} (index : nat) (l : list A) {struct l} : list A :=
  match l with
  | [] => []
  | x :: l' =>
      match index with
      | O => l'
      | S i => x :: remove_at i l'
      end
  end.

Definition handleRemoveImage (index : nat) (s : state) : state :=
  setUploadError None
    (setImagePreviews (remove_at index (imagePreviews s))
       (setSelectedImages (remove_at index (selectedImages s)) s)).

(** [handleModeSwitch], without its request to the mode endpoint. *)
Definition handleModeSwitch (newMode : Mode) (s : state) : state :=
  if bool_decide (newMode = mode s) then s else setMode newMode s.

(** The [disabled] attribute of the send button. *)
Definition send_disabled (s : state) : bool :=
  isSending s
  || (negb (truthy (trim (inputMessage s))) && (length (selectedImages s) =? 0)%nat).

(** The page together with what it is waiting for: the preview reads that
    have not finished and the chat requests handed to [fetch]. *)
Record world := mkWorld {
  page : state;
  reading : list (list File);   (* valid files of each unfinished read, oldest first *)
  sent : list request;          (* oldest first *)
  answered : nat                (* how many of them have settled *)
}.

Inductive event :=
| TypeText (t : string)                     (* [onChange] of the text input *)
| Send                                      (* Enter in the input, or the send button *)
| Settled (r : fetch_result chat_reply)     (* the oldest open request settles *)
| ChooseFiles (files : list File)           (* [onChange] of the file input *)
| PreviewsRead (k : nat) (previews : list string)  (* the k-th unfinished read finishes *)
| RemoveImage (index : nat)
| SwitchMode (m : Mode).

Definition step (e : event) (w : world) : world :=
  match e with
  | TypeText t => mkWorld (setInputMessage t (page w)) (reading w) (sent w) (answered w)
  | Send =>
      match handleSendMessage (page w) with
      | (s, None) => mkWorld s (reading w) (sent w) (answered w)
      | (s, Some rq) => mkWorld s (reading w) (sent w ++ [rq]) (answered w)
      end
  | Settled r =>
      if (answered w <? length (sent w))%nat then
        mkWorld (handleSendMessage_settled r (page w)) (reading w) (sent w)
                (S (answered w))
      else w
  | ChooseFiles files =>
      match handleImageSelect files (page w) with
      | (s, None) => mkWorld s (reading w) (sent w) (answered w)
      | (s, Some validFiles) =>
          mkWorld s (reading w ++ [validFiles]) (sent w) (answered w)
      end
  | PreviewsRead k previews =>
      match reading w !! k with
      | Some validFiles =>
          mkWorld (previews_loaded validFiles previews (page w))
                  (remove_at k (reading w)) (sent w) (answered w)
      | None => w
      end
  | RemoveImage index =>
      mkWorld (handleRemoveImage index (page w)) (reading w) (sent w) (answered w)
  | SwitchMode m =>
      mkWorld (handleModeSwitch m (page w)) (reading w) (sent w) (answered w)
  end.

Definition run (evs : list event) (w : world) : world :=
  fold_left (fun w e => step e w) evs w.

Definition start (model : string) : world :=
  mkWorld (initial model) [] [] 0.

Definition outstanding (w : world) : nat := length (sent w) - answered w.

End Page.

(** ** Loading the product: api.getProduct and fetchProductData *)

Module ProductData.

(** [err.message]: the text given to [new Error], and for an exception
    raised by the host the text that the host gave it. *)
Definition message_of (host_text : string) (e : exn) : string :=
  match e with
  | Error msg => msg
  | _ => host_text
  end.

(** [api.getProduct(modelId)], given what the request produced. *)
Definition getProduct {B} (r : fetch_result B) : outcome B :=
  match r with
  | Rejected => Throw TypeError
  | Response ok _ json =>
      if negb ok then Throw (Error "Failed to fetch product")
      else match json with
           | Some body => Ret body
           | None => Throw SyntaxError
           end
  end.

(** The product part of the state of [ProductDetailPage]. *)
Record state (B : Type) := mkState {
  productData : option B;
  loading : bool;
  error : option string
}.
Arguments mkState {B} productData loading error.
Arguments productData {B} s.
Arguments loading {B} s.
Arguments error {B} s.

Definition initial {B} : state B := mkState None true None.

(** [fetchProductData] up to its [await]. *)
Definition fetchProductData_start {B} (s : state B) : state B :=
  mkState (productData s) true (error s).

(** The rest of [fetchProductData] once the request has settled: [try],
    [catch], [finally]. *)
Definition fetchProductData_settled {B} (host_text : string) (r : fetch_result B)
    (s : state B) : state B :=
  match getProduct r with
  | Ret data => mkState (Some data) false None
  | Throw err => mkState (productData s) false (Some (message_of host_text err))
  end.

Definition fetchProductData {B} (host_text : string) (r : fetch_result B)
    (s : state B) : state B :=
  fetchProductData_settled host_text r (fetchProductData_start s).

(** What the page renders: the early returns of the component. *)
Inductive view (B : Type) :=
| Spinner
| ErrorView (msg : string)
| Nothing
| ProductView (data : B).
Arguments Spinner {B}.
Arguments ErrorView {B} msg.
Arguments Nothing {B}.
Arguments ProductView {B} data.

Definition render {B} (s : state B) : view B :=
  if loading s then Spinner
  else if truthy_opt (error s) then ErrorView (default "" (error s))
  else match productData s with
       | None => Nothing
       | Some data => ProductView data
       end.

(** The page after the first fetch and any number of retries, each run to
    its end. *)
Definition fetches {B} (host_text : string) (rs : list (fetch_result B))
    (s : state B) : state B :=
  fold_left (fun s r => fetchProductData host_text r s) rs s.

End ProductData.

(** ** MarketplacePage (in frontend/src/pages) *)

Module Marketplace.

Record model := mkModel {
  model_id : string;
  model_name : string
}.

Record product := mkProduct {
  brand : string;
  models : option (list model)      (* [product.models], possibly missing *)
}.

(** The value stored under a category: an array of products, or anything
    else. *)
Inductive category_value :=
| Products (l : list product)
| NotAnArray.

(** The catalog as [Object.entries] lists it. *)
Definition catalog := list (string * category_value).

Record item := mkItem {
  category : string;
  item_product : product;
  item_model : model
}.

(** The models of one product, each as an item of the category. *)
Definition items_of_product (category : string) (p : product) : list item :=
  map (mkItem category p) (default [] (models p)).

(** The items of one entry of the catalog. *)
Definition items_of_entry (e : string * category_value) : list item :=
  match snd e with
  | Products categoryProducts =>
      flat_map (items_of_product (fst e)) categoryProducts
  | NotAnArray => []
  end.

(** [getAllProductsArray], on the [products] of the state ([None] when it
    is falsy). *)
Definition getAllProductsArray (products : option catalog) : list item :=
  match products with
  | None => []
  | Some entries => flat_map items_of_entry entries
  end.

(** [getFilteredProducts] *)
Definition getFilteredProducts (activeCategory : string) (products : option catalog)
  : list item :=
  let allProducts := getAllProductsArray products in
  if bool_decide (activeCategory = "all") then allProducts
  else List.filter (fun item => bool_decide (category item = activeCategory)) allProducts.

(** The body of the products response: with a truthy [all_products], or
    taken as the catalog itself. *)
Inductive products_body :=
| Wrapped (all_products : catalog)
| Bare (data : catalog).

(** [api.getProducts()], given what the request produced. *)
Definition getProducts (r : fetch_result products_body) : outcome products_body :=
  match r with
  | Rejected => Throw TypeError
  | Response ok _ json =>
      if negb ok then Throw (Error "Failed to fetch products")
      else match json with
           | Some body => Ret body
           | None => Throw SyntaxError
           end
  end.

Record state := mkState {
  products : option catalog;
  loading : bool;
  error : option string;
  activeCategory : string
}.

Definition initial : state := mkState (Some []) true None "all".

(** [fetchProducts], from its start to the end of its [finally]. *)
Definition fetchProducts (host_text : string) (r : fetch_result products_body)
    (s : state) : state :=
  match getProducts r with
  | Ret (Wrapped all_products) =>
      mkState (Some all_products) false (error s) (activeCategory s)
  | Ret (Bare data) =>
      mkState (Some data) false (error s) (activeCategory s)
  | Throw err =>
      mkState (products s) false (Some (ProductData.message_of host_text err))
              (activeCategory s)
  end.

(** Whether the product grid is rendered: [!loading && !error]. *)
Definition grid_shown (s : state) : bool :=
  negb (loading s) && negb (truthy_opt (error s)).

Definition fetches (host_text : string) (rs : list (fetch_result products_body))
    (s : state) : state :=
  fold_left (fun s r => fetchProducts host_text r s) rs s.

End Marketplace.

(** ** The auth callback route handler *)

Module AuthCallback.

(** The characters that [encodeURIComponent] leaves as they are. *)
Definition unreserved (c : ascii) : bool :=
  let n := N_of_ascii c in
  ((48 <=? n) && (n <=? 57) || (65 <=? n) && (n <=? 90) || (97 <=? n) && (n <=? 122)
   || (n =? 45) || (n =? 95) || (n =? 46) || (n =? 33) || (n =? 126)
   || (n =? 42) || (n =? 39) || (n =? 40) || (n =? 41))%N.

Definition hex_digit (d : N) : ascii :=
  ascii_of_N (if d <? 10 then d + 48 else d + 55)%N.

(** The escape of one octet. *)
Definition percent (b : N) : string :=
  String "%" (String (hex_digit (b / 16)) (String (hex_digit (b mod 16)) EmptyString)).

(** The encoding of one code unit below 256: itself when unreserved, the
    escape of its octet below 128, and the escapes of the two octets of its
    UTF-8 form from 128 on. *)
Definition encode_unit (c : ascii) : string :=
  let n := N_of_ascii c in
  if (n <? 128)%N then
    if unreserved c then String c EmptyString else percent n
  else percent (192 + n / 64) +:+ percent (128 + n mod 64).

Fixpoint encodeURIComponent (s : string) : string :=
  match s with
  | EmptyString => EmptyString
  | String c s' => encode_unit c +:+ encodeURIComponent s'
  end.

(** The search parameters that the handler reads ([null] when absent). *)
Record query := mkQuery {
  code : option string;
  error : option string;
  error_code : option string;
  error_description : option string
}.

(** What exchanging the code produces: a session, an error of the provider
    with its message, or an exception. *)
Inductive exchange :=
| Exchanged
| ExchangeError (message : string)
| Threw.

Definition login_redirect (origin message : string) : string :=
  origin +:+ "/login?error=" +:+ encodeURIComponent message.

(** [error_description || error || 'Authentication failed'] *)
Definition errorMessage (q : query) : string :=
  if truthy_opt (error_description q) then default "" (error_description q)
  else if truthy_opt (error q) then default "" (error q)
  else "Authentication failed".

(** Whether the handler gets to exchange the code. *)
Definition exchanges (q : query) : bool :=
  negb (truthy_opt (error q) || truthy_opt (error_code q)) && truthy_opt (code q).

(** [GET(request)]: the URL of the redirect returned, given the origin and
    search parameters of the request and what the exchange produces if it
    is made. *)
Definition GET (origin : string) (q : query) (x : exchange) : string :=
  if truthy_opt (error q) || truthy_opt (error_code q) then
    login_redirect origin (errorMessage q)
  else if truthy_opt (code q) then
    match x with
    | ExchangeError message => login_redirect origin message
    | Exchanged => origin +:+ "/"
    | Threw => login_redirect origin "Authentication failed"
    end
  else login_redirect origin "Invalid authentication request".

End AuthCallback.

(** ** The product page in its tab: opening, leaving and re-opening *)

Module Tab.

(** A browser tab on the shop: the storage of the origin, the product page
    that is mounted, if one is, and the chat requests of pages that were
    left before the requests settled. Leaving a page aborts nothing. *)
Record tab := mkTab {
  storage : LocalStorage;
  current : option Page.world;
  abandoned : list request
}.

Inductive event :=
| Open (model uuid : string)     (* navigation to the product: the page mounts and
                                    runs its session effect; [uuid] is what
                                    [crypto.randomUUID()] returns if called *)
| Back                           (* Back to Marketplace: the page unmounts *)
| On (e : Page.event)            (* an event of the mounted page *)
| HistorySettled (r : fetch_result Api.history)
                                 (* the history request of the mounted page settles *)
| AbandonedSettled.              (* the oldest request of a page that was left
                                    settles; its state updates do nothing *)

(** The requests of a page that have not settled. *)
Definition open_of (w : Page.world) : list request :=
  drop (Page.answered w) (Page.sent w).

Definition unmount (t : tab) : tab :=
  match current t with
  | Some w => mkTab (storage t) None (abandoned t ++ open_of w)
  | None => t
  end.

(** The first render and the session effect. An exception in the effect
    takes the page down. *)
Definition mount (model uuid : string) (t : tab) : tab :=
  match Page.init_session uuid (storage t) (Page.initial model) with
  | (Ret s, ls) => mkTab ls (Some (Page.mkWorld s [] [] 0)) (abandoned t)
  | (Throw _, ls) => mkTab ls None (abandoned t)
  end.

(** The [then] of the history request: [loadConversationHistory] on the
    state of the page. Without a session no history was requested. *)
Definition history_settled (r : fetch_result Api.history) (w : Page.world)
  : Page.world :=
  match Page.sessionId (Page.page w) with
  | Some sid =>
      match Page.loadConversationHistory sid r (Page.page w) with
      | Ret s => Page.mkWorld s (Page.reading w) (Page.sent w) (Page.answered w)
      | Throw _ => w
      end
  | None => w
  end.

Definition step (e : event) (t : tab) : tab :=
  match e with
  | Open model uuid => mount model uuid (unmount t)
  | Back => unmount t
  | On e' =>
      match current t with
      | Some w => mkTab (storage t) (Some (Page.step e' w)) (abandoned t)
      | None => t
      end
  | HistorySettled r =>
      match current t with
      | Some w => mkTab (storage t) (Some (history_settled r w)) (abandoned t)
      | None => t
      end
  | AbandonedSettled => mkTab (storage t) (current t) (tl (abandoned t))
  end.

Definition run (evs : list event) (t : tab) : tab :=
  fold_left (fun t e => step e t) evs t.

(** A tab on the marketplace, no product page mounted. *)
Definition start (ls : LocalStorage) : tab := mkTab ls None [].

(** All chat requests of the tab that have not settled. *)
Definition open_requests (t : tab) : list request :=
  abandoned t ++ match current t with
                 | Some w => open_of w
                 | None => []
                 end.

(** The session identifier that a request carries, under either name. *)
Definition session_of (rq : request) : list form_value :=
  getAll (req_body rq) "session_id" ++ getAll (req_body rq) "conversation_id".

(** The open requests of one session. *)
Definition open_in_session (sid : string) (t : tab) : list request :=
  List.filter (fun rq => bool_decide (session_of rq = [FText sid])) (open_requests t).

End Tab.

(** ** Notions used in the statements *)

(** What [trimStart] leaves is empty or starts with a visible character. *)
Definition starts_visible (s : string) : Prop :=
  match s with
  | EmptyString => True
  | String c _ => is_white_space c = false
  end.

(** The turns that a settled history request delivers: those of the body of
    a successful response, none otherwise. *)
Definition delivered_turns (r : fetch_result Api.history) : list turn :=
  match r with
  | Response true _ (Some body) => default [] (Api.messages body)
  | _ => []
  end.



(** The page with one image selected and nothing typed. *)
Definition image_only : Page.state :=
  Page.setSelectedImages [mkFile "room.png" "image/png" 1000]
    (Page.initial "CM-FF-360-BLACK").

(** Decimal digits. *)
Definition is_digit (c : ascii) : bool :=
  let n := N_of_ascii c in ((48 <=? n) && (n <=? 57))%N.

Fixpoint all_digits (s : string) : bool :=
  match s with
  | EmptyString => true
  | String c s' => is_digit c && all_digits s'
  end.

(** The digits of radix 36, as [Number.prototype.toString(36)] writes
    them: [0]-[9] and [a]-[z]. *)
Definition is_base36 (c : ascii) : bool :=
  let n := N_of_ascii c in
  ((48 <=? n) && (n <=? 57) || (97 <=? n) && (n <=? 122))%N.

Definition digit36 (c : ascii) : N :=
  let n := N_of_ascii c in
  (if n <=? 57 then n - 48 else n - 87)%N.

Definition char36 (d : N) : ascii :=
  ascii_of_N (if d <? 10 then d + 48 else d + 87)%N.

Fixpoint all_base36 (s : string) : bool :=
  match s with
  | EmptyString => true
  | String c s' => is_base36 c && all_base36 s'
  end.

(** The strings that [Math.random().toString(36)] can be: [0], or [0.]
    followed by digits of radix 36. *)
Definition is_random36 (r : string) : bool :=
  match r with
  | String "0" EmptyString => true
  | String "0" (String "." ds) => all_base36 ds
  | _ => false
  end.

(** A numbering of the strings of digits of radix 36: the string read as a
    numeral of radix 37 with digits 1 to 36, least significant first. *)
Fixpoint rank36 (s : string) : N :=
  match s with
  | EmptyString => 0
  | String c s' => digit36 c + 1 + 37 * rank36 s'
  end.

(** The string of at most [len] digits with a given number. *)
Fixpoint unrank36 (len : nat) (n : N) : string :=
  match len with
  | O => EmptyString
  | S k =>
      if (n =? 0)%N then EmptyString
      else String (char36 (n mod 37 - 1)) (unrank36 k (n / 37))
  end.

(** The part of a generated identifier that comes from [Math.random]. *)
Definition random_part (e : ChatApi.entropy) : string :=
  substr (ChatApi.random36 e) 2 9.

(** Two readings of the clock and of [Math.random] that differ only after
    the ninth digit of the random number, and a third, later one. *)
Definition draw_a : ChatApi.entropy :=
  ChatApi.mkEntropy 1700000000000 "0.abcdefghijk".
Definition draw_b : ChatApi.entropy :=
  ChatApi.mkEntropy 1700000000000 "0.abcdefghizz".
Definition draw_c : ChatApi.entropy :=
  ChatApi.mkEntropy 1700000000001 "0.k3v9x0q2mzp".

(** One request at a time: the requests handed to [fetch] are those that
    have settled, plus one while the page is sending. *)
Definition page_serial (w : Page.world) : Prop :=
  length (Page.sent w)
    = Page.answered w + (if Page.isSending (Page.page w) then 1 else 0).

Definition widget_serial (w : Widget.world) : Prop :=
  length (Widget.sent w)
    = Widget.answered w + (if Widget.isLoading (Widget.widget w) then 1 else 0).

(** The files that the product page accepts: an image type and at most
    [Page.MAX_BYTES] bytes. *)
Definition acceptable (f : File) : bool :=
  startsWith (file_type f) "image/" && negb (Page.MAX_BYTES <? file_size f)%N.

(** The files that the room-image upload accepts. *)
Definition acceptable_room (f : File) : bool :=
  startsWith (file_type f) "image/" && negb (ImageUpload.MAX_BYTES <? file_size f)%N.

(** Every file that the page has selected, is reading or has sent is
    acceptable. *)
Definition page_clean (w : Page.world) : Prop :=
  Forall (fun f => acceptable f = true) (Page.selectedImages (Page.page w))
  /\ Forall (Forall (fun f => acceptable f = true)) (Page.reading w)
  /\ Forall (fun rq => Forall (fun f => acceptable f = true)
                         (carried_images (req_body rq))) (Page.sent w).

(** The page used in an orderly way: files are chosen only when no earlier
    read of previews is unfinished. *)
Definition step_orderly (e : Page.event) (w : Page.world) : Page.world :=
  match e, Page.reading w with
  | Page.ChooseFiles _, _ :: _ => w
  | _, _ => Page.step e w
  end.

Definition run_orderly (evs : list Page.event) (w : Page.world) : Page.world :=
  fold_left (fun w e => step_orderly e w) evs w.

(** The images selected and those being read fit the limit, and no request
    sent carries more than the limit. *)
Definition within_limit (w : Page.world) : Prop :=
  length (Page.selectedImages (Page.page w)) + length (concat (Page.reading w))
    <= Page.MAX_IMAGES
  /\ Forall (fun rq => length (carried_images (req_body rq)) <= Page.MAX_IMAGES)
            (Page.sent w).

(** Two selections of three images each, the second made before the
    previews of the first are read, then both reads finishing and a send. *)
Definition overlapping (fs1 fs2 : list File) (pv1 pv2 : list string)
  : list Page.event :=
  [Page.ChooseFiles fs1; Page.ChooseFiles fs2;
   Page.PreviewsRead 0 pv1; Page.PreviewsRead 0 pv2; Page.Send].

(** Sample files. *)
Definition photo (name : string) : File := mkFile name "image/png" 120000.
Definition manual_pdf : File := mkFile "manual.pdf" "application/pdf" 120000.

(** The key under which the widget keeps the session of a product, and
    the key of the product page. *)
Definition widget_key (productId : string) : string := "chat_session_" +:+ productId.
Definition page_key (modelId : string) : string := "session_" +:+ modelId.

(** The items of the storage of a host (none outside a browser). *)
Definition stored (h : host) : gmap string string :=
  match h with
  | Browser ls => items ls
  | Server => ∅
  end.

(** The number of fields of a form that carry a session identifier. *)
Definition session_fields (fd : FormData) : nat :=
  length (getAll fd "session_id") + length (getAll fd "conversation_id").

(** The roles of a conversation of [answered] completed exchanges, with
    one more user turn while a request is open. *)
Definition expected_roles (answered : nat) (sending : bool) : list string :=
  concat (repeat ["user"; "assistant"] answered)
  ++ (if sending then ["user"] else []).

(** The conversation of the page is a dialogue: one request at a time, user
    and assistant turns alternating, and no user turn with empty content. *)
Definition dialogue (w : Page.world) : Prop :=
  page_serial w
  /\ map role (Page.messages (Page.page w))
     = expected_roles (Page.answered w) (Page.isSending (Page.page w))
  /\ Forall (fun t => role t = "assistant" \/ content t <> "")
            (Page.messages (Page.page w)).

(** A read of previews delivers one preview for each file read, as
    [Promise.all] over the valid files does. *)
Definition reads_match (e : Page.event) (w : Page.world) : bool :=
  match e with
  | Page.PreviewsRead k previews =>
      match Page.reading w !! k with
      | Some validFiles => (length previews =? length validFiles)%nat
      | None => true
      end
  | _ => true
  end.

Definition step_reader (e : Page.event) (w : Page.world) : Page.world :=
  if reads_match e w then Page.step e w else w.

Definition run_reader (evs : list Page.event) (w : Page.world) : Page.world :=
  fold_left (fun w e => step_reader e w) evs w.

(** The page after its session effect has set the session identifier. *)
Definition start_in_session (model sid : string) : Page.world :=
  Page.mkWorld (Page.setSessionId (Some sid) (Page.initial model)) [] [] 0.

(** A request of the page for a model and a session: the model once, and
    the session once, under one of its two names. *)
Definition page_request_of (model sid : string) (rq : request) : Prop :=
  getAll (req_body rq) "model_id" = [FText model]
  /\ getAll (req_body rq) "session_id" ++ getAll (req_body rq) "conversation_id"
     = [FText sid].

(** A request of the widget for a product and a session: the product and
    the session once each, and at most one file, of an image type. *)
Definition widget_request_of (product sid : string) (rq : request) : Prop :=
  getAll (req_body rq) "model_id" = [FText product]
  /\ getAll (req_body rq) "conversation_id" = [FText sid]
  /\ length (carried_images (req_body rq)) <= 1
  /\ Forall (fun f => startsWith (file_type f) "image/" = true)
            (carried_images (req_body rq)).

(** The widget belongs to a product and a session, and the file attached
    in its input, if any, has an image type. *)
Definition widget_bound (product sid : string) (w : Widget.world) : Prop :=
  Widget.product_id (Widget.widget w) = product
  /\ Widget.sessionId (Widget.widget w) = sid
  /\ match Widget.selectedImage (Widget.input w) with
     | Some f => startsWith (file_type f) "image/" = true
     | None => True
     end
  /\ Forall (widget_request_of product sid) (Widget.sent w).

(** A fetch that [api.getProducts] or [api.getProduct] turns into a value:
    an [ok] response with a body that parses. *)
Definition succeeded {B} (r : fetch_result B) : bool :=
  match r with
  | Response true _ (Some _) => true
  | _ => false
  end.

(** Characters that cannot end or split a query parameter: the unreserved
    ones and the percent sign. *)
Definition url_safe (c : ascii) : bool :=
  AuthCallback.unreserved c || Ascii.eqb c "%".

Fixpoint all_url_safe (s : string) : bool :=
  match s with
  | EmptyString => true
  | String c s' => url_safe c && all_url_safe s'
  end.

(** A catalog of two categories, one product without models. *)
Definition sample_catalog : Marketplace.catalog :=
  [("refrigerators",
    Marketplace.Products
      [Marketplace.mkProduct "CoolMax"
         (Some [Marketplace.mkModel "CM-FF-360-BLACK" "FrostFree 360";
                Marketplace.mkModel "CM-FF-360-STEEL" "FrostFree 360 Steel"]);
       Marketplace.mkProduct "Polar" None]);
   ("categories", Marketplace.NotAnArray);
   ("headphones",
    Marketplace.Products
      [Marketplace.mkProduct "Sonic"
         (Some [Marketplace.mkModel "SN-H1" "H1"])])].

(** The page of a product with three images selected. *)
Definition full_page : Page.state :=
  Page.setSelectedImages [photo "a"; photo "b"; photo "c"]
    (Page.initial "CM-FF-360-BLACK").

(** Two identifiers as [crypto.randomUUID] returns them. *)
Definition uuid_a : string := "3b241101-e2bb-4255-8caf-4136c566a962".
Definition uuid_b : string := "9f8b7c6d-5e4f-4a3b-9c2d-1e0f9a8b7c6d".


(** One request at a time in every session: whatever happens in the tab,
    at most one chat request of a session is open. *)
Definition serialized_per_session : Prop :=
  forall (evs : list Tab.event) (sid : string),
    length (Tab.open_in_session sid (Tab.run evs (Tab.start (working ∅)))) <= 1.

(** A message sent from the product page, the page left before the reply
    and opened again, and a second message sent. *)
Definition reopened_while_sending : list Tab.event :=
  [Tab.Open "CM-FF-360-BLACK" uuid_a;
   Tab.On (Page.TypeText "hi"); Tab.On Page.Send;
   Tab.Back;
   Tab.Open "CM-FF-360-BLACK" uuid_b;
   Tab.On (Page.TypeText "again"); Tab.On Page.Send].

(** A message sent from the product page and more text typed before the
    reply, with the history request answered in between. *)
Definition typed_during_reply : list Tab.event :=
  [Tab.Open "CM-FF-360-BLACK" uuid_a;
   Tab.HistorySettled (Response false 404 None);
   Tab.On (Page.TypeText "hi"); Tab.On Page.Send;
   Tab.On (Page.TypeText "again")].

(** The mounted page, if any, has one request open at most. *)
Definition mount_serial (t : Tab.tab) : Prop :=
  match Tab.current t with
  | Some w => page_serial w
  | None => True
  end.

(** An event that brings no stored turns: any event but a history reply
    with turns. *)
Definition brings_no_history (e : Tab.event) : Prop :=
  match e with
  | Tab.HistorySettled r => delivered_turns r = []
  | _ => True
  end.

(** The mounted page, if any, shows a dialogue. *)
Definition mount_dialogue (t : Tab.tab) : Prop :=
  match Tab.current t with
  | Some w => dialogue w
  | None => True
  end.

(** Two calls of [getSessionId] outside a browser, with the given readings
    of the clock and of [Math.random], return different results. *)
Definition server_calls_differ (p : string) (e1 e2 : ChatApi.entropy) : Prop :=
  fst (ChatApi.getSessionId p e1 Server) <> fst (ChatApi.getSessionId p e2 Server).

Fixpoint all_white_space (s : string) : bool :=
  match s with
  | EmptyString => true
  | String c s' => is_white_space c && all_white_space s'
  end.

(** A text that is empty or ends with a visible character. *)
Fixpoint ends_visible (s : string) : Prop :=
  match s with
  | EmptyString => True
  | String c EmptyString => is_white_space c = false
  | String _ s' => ends_visible s'
  end.

(** The request carries, as its one [message], the typed text without its
    leading and trailing white space: the typed text is white space, the
    message, white space, and the message neither starts nor ends with white
    space. *)
Definition carries_typed_text (typed : string) (rq : request) : Prop :=
  exists a t b : string,
    typed = a +:+ t +:+ b
    /\ all_white_space a = true /\ all_white_space b = true
    /\ starts_visible t /\ ends_visible t
    /\ getAll (req_body rq) "message" = [FText t].

(** The page with text typed between spaces. *)
Definition typed_with_spaces : Page.state :=
  Page.setInputMessage "  what is the warranty? " (Page.initial "CM-FF-360-BLACK").

(** * Properties *)

(** ** Strings *)

Section Strings.

Lemma truthy_true_iff (s : string) : truthy s = true <-> s <> "".
Proof. destruct s; simpl; split; congruence. Qed.

Lemma truthy_false_iff (s : string) : truthy s = false <-> s = "".
Proof. destruct s; simpl; split; congruence. Qed.

Lemma trimStart_starts_visible (s : string) : starts_visible (trimStart s).
Proof.
  induction s as [|c s IH]; simpl; [exact I|].
  destruct (is_white_space c) eqn:E; [exact IH | exact E].
Qed.


Lemma trimEnd_starts_visible (s : string) :
  starts_visible s -> starts_visible (trimEnd s).
Proof.
  destruct s as [|c s]; simpl; [exact id|].
  intros Hc. destruct (trimEnd s); simpl; [rewrite Hc|]; exact Hc.
Qed.



End Strings.

(** ** Forms *)

Section Forms.

Lemma append_files_spec (fd : FormData) (name : string) (files : list File) :
  append_files fd name files = fd ++ map (fun f => (name, FFile f)) files.
Proof.
  unfold append_files. revert fd.
  induction files as [|f files IH]; intros fd; simpl.
  - symmetry. apply app_nil_r.
  - rewrite IH. unfold append. rewrite <- app_assoc. reflexivity.
Qed.

Lemma getAll_app (fd1 fd2 : FormData) (name : string) :
  getAll (fd1 ++ fd2) name = getAll fd1 name ++ getAll fd2 name.
Proof. unfold getAll. rewrite List.filter_app, map_app. reflexivity. Qed.

Lemma getAll_files_other (name other : string) (files : list File) :
  name <> other ->
  getAll (map (fun f => (name, FFile f)) files) other = [].
Proof.
  intros Hne. unfold getAll.
  induction files as [|f files IH]; simpl; [reflexivity|].
  rewrite bool_decide_eq_false_2 by exact Hne. exact IH.
Qed.

Lemma carried_images_app (fd1 fd2 : FormData) :
  carried_images (fd1 ++ fd2) = carried_images fd1 ++ carried_images fd2.
Proof. unfold carried_images. apply flat_map_app. Qed.

Lemma carried_images_files (files : list File) :
  carried_images (map (fun f => ("images", FFile f)) files) = files.
Proof.
  induction files as [|f files IH]; simpl; [reflexivity|].
  f_equal. exact IH.
Qed.

(** The request built by [api.sendMessage] carries exactly the given
    files, in order. *)
Lemma sendMessage_carries (message modelId : string) (mode : Mode)
    (images : list File) (sid : option string) :
  carried_images
    (Api.sendMessage_form message modelId mode (Api.FileArray images) sid) = images.
Proof.
  unfold Api.sendMessage_form. simpl Api.images_of.
  destruct images as [|f images].
  - simpl. destruct (truthy_opt sid); reflexivity.
  - cbn [length Nat.ltb Nat.leb].
    rewrite append_files_spec, carried_images_app, carried_images_files.
    destruct (truthy_opt sid); reflexivity.
Qed.

(** The text sent under [message] is the text given. *)
Lemma sendMessage_message (message modelId : string) (mode : Mode)
    (images : list File) (sid : option string) :
  getAll (Api.sendMessage_form message modelId mode (Api.FileArray images) sid)
    "message" = [FText message].
Proof.
  assert (Hm : Api.or_empty message = message).
  { unfold Api.or_empty. destruct message; reflexivity. }
  unfold Api.sendMessage_form. simpl Api.images_of. rewrite Hm.
  destruct images as [|f images].
  - simpl. destruct (truthy_opt sid); reflexivity.
  - cbn [length Nat.ltb Nat.leb].
    rewrite append_files_spec, getAll_app.
    rewrite getAll_files_other by discriminate.
    destruct (truthy_opt sid); reflexivity.
Qed.

End Forms.

(** ** The field that carries the session identifier *)

Section SessionField.

Lemma sendChatMessage_session_field (p : ChatApi.params) :
  getAll (ChatApi.sendChatMessage_form p) "conversation_id"
    = [FText (ChatApi.sessionId p)]
  /\ getAll (ChatApi.sendChatMessage_form p) "session_id" = [].
Proof.
  unfold ChatApi.sendChatMessage_form.
  rewrite append_files_spec, !getAll_app.
  rewrite !getAll_files_other by discriminate.
  split; reflexivity.
Qed.

(** C8. [api.sendMessage] puts a truthy session identifier under
    [session_id] when at least one image is attached and under
    [conversation_id] when none is: the name of the field differs between
    image-bearing and text-only submissions. *)
Theorem sendMessage_session_field_differs
    (message modelId : string) (mode : Mode) (f : File) (fs : list File)
    (sid : string) :
  truthy sid = true ->
  let with_images :=
    Api.sendMessage_form message modelId mode (Api.FileArray (f :: fs)) (Some sid) in
  let text_only :=
    Api.sendMessage_form message modelId mode (Api.FileArray []) (Some sid) in
  getAll with_images "session_id" = [FText sid]
  /\ getAll with_images "conversation_id" = []
  /\ getAll text_only "conversation_id" = [FText sid]
  /\ getAll text_only "session_id" = [].
Proof.
  intros Hsid. unfold Api.sendMessage_form. simpl Api.images_of.
  cbn [length Nat.ltb Nat.leb truthy_opt default]. rewrite Hsid.
  rewrite append_files_spec, !getAll_app.
  rewrite !getAll_files_other by discriminate.
  repeat split; reflexivity.
Qed.

Lemma sendMessage_session_field_differs_witness :
  getAll (Api.sendMessage_form "hi" "CM-FF-360-BLACK" PRE_PURCHASE
            (Api.FileArray [mkFile "room.png" "image/png" 1000]) (Some "s1"))
         "session_id" = [FText "s1"]
  /\ getAll (Api.sendMessage_form "hi" "CM-FF-360-BLACK" PRE_PURCHASE
               (Api.FileArray []) (Some "s1"))
            "session_id" = [].
Proof.
  pose proof (sendMessage_session_field_differs "hi" "CM-FF-360-BLACK" PRE_PURCHASE
                (mkFile "room.png" "image/png" 1000) [] "s1" eq_refl) as H.
  simpl in H. destruct H as (H1 & _ & _ & H4). split; assumption.
Defined.

End SessionField.

(** ** Loading the history *)

Section History.

Lemma getConversationHistory_not_ok (sid : string) (status : N)
    (json : option Api.history) :
  Api.getConversationHistory sid (Response false status json)
    = Ret (Api.mkHistory sid (Some [])).
Proof. reflexivity. Qed.

Lemma getConversationHistory_ok (sid : string) (status : N) (body : Api.history) :
  Api.getConversationHistory sid (Response true status (Some body)) = Ret body.
Proof. reflexivity. Qed.

Lemma loadConversationHistory_total (sid : string) (r : fetch_result Api.history)
    (s : Page.state) :
  Page.loadConversationHistory sid r s
    = Ret (Page.setIsLoadingHistory false
             (match delivered_turns r with
              | [] => Page.setIsLoadingHistory true s
              | l => Page.setMessages l (Page.setIsLoadingHistory true s)
              end)).
Proof.
  unfold Page.loadConversationHistory, delivered_turns.
  destruct r as [|[] status [[sid' [[|m ms]|]]|]]; reflexivity.
Qed.

(** C4. The history fetch returns the body of a successful response, with
    its turns in the order given, and a result with an empty [messages]
    list when the backend answers unsuccessfully; the caller
    [loadConversationHistory] never throws, ends with the loading flag
    cleared, shows the delivered turns when there are some and keeps its
    messages otherwise. *)
Theorem history_fetch_degrades_to_empty
    (sid : string) (status : N) (json : option Api.history) (body : Api.history)
    (r : fetch_result Api.history) (s : Page.state) :
  Api.getConversationHistory sid (Response false status json)
    = Ret (Api.mkHistory sid (Some []))
  /\ Api.getConversationHistory sid (Response true status (Some body)) = Ret body
  /\ exists s',
       Page.loadConversationHistory sid r s = Ret s'
       /\ Page.isLoadingHistory s' = false
       /\ Page.messages s' = match delivered_turns r with
                             | [] => Page.messages s
                             | l => l
                             end.
Proof.
  split; [reflexivity|]. split; [reflexivity|].
  eexists. split; [apply loadConversationHistory_total|].
  split; [reflexivity|].
  destruct (delivered_turns r); reflexivity.
Qed.

End History.

(** ** When a chat submission is issued *)

Section Submission.


Lemma input_submit_calls_onSend_iff (i : Widget.input_state) :
  is_Some (snd (Widget.handleSubmit i))
  <-> trim (Widget.message i) <> "" \/ is_Some (Widget.selectedImage i).
Proof.
  unfold Widget.handleSubmit.
  destruct (truthy (trim (Widget.message i))) eqn:Ht;
    destruct (Widget.selectedImage i) as [f|]; simpl;
    rewrite ?is_Some_alt; simpl;
    try apply truthy_true_iff in Ht; try apply truthy_false_iff in Ht;
    split; try tauto; try (intros [?|?]; [congruence|]; tauto).
  all: try (intros [?|[? ?]]; congruence).
  all: try (intros _; right; eauto).
Qed.





End Submission.

(** ** Rendering of identifiers *)

Section Rendering.

Lemma string_of_uint_digits (d : Decimal.uint) :
  all_digits (NilEmpty.string_of_uint d) = true.
Proof. induction d; simpl; auto. Qed.

Lemma string_of_N_digits (n : N) : all_digits (string_of_N n) = true.
Proof.
  unfold string_of_N, NilZero.string_of_uint.
  destruct (N.to_uint n) eqn:E; try reflexivity;
    rewrite <- E; apply string_of_uint_digits.
Qed.

Lemma to_uint_nonnil (n : N) : N.to_uint n <> Decimal.Nil.
Proof.
  destruct n as [|p]; simpl; [discriminate|].
  apply DecimalPos.Unsigned.to_uint_nonnil.
Qed.

Lemma string_of_N_inj (n m : N) : string_of_N n = string_of_N m -> n = m.
Proof.
  unfold string_of_N. intros H.
  apply DecimalN.Unsigned.to_uint_inj.
  assert (Hn := NilZero.usu _ (to_uint_nonnil n)).
  assert (Hm := NilZero.usu _ (to_uint_nonnil m)).
  rewrite H in Hn. congruence.
Qed.

Lemma append_nil_l (t : string) : "" +:+ t = t.
Proof. reflexivity. Qed.

Lemma append_cons_l (c : ascii) (s t : string) :
  String c s +:+ t = String c (s +:+ t).
Proof. reflexivity. Qed.

(** A run of digits followed by an underscore is read back unambiguously. *)
Lemma digits_then_underscore_inj (a b x y : string) :
  all_digits a = true -> all_digits b = true ->
  a +:+ "_" +:+ x = b +:+ "_" +:+ y -> a = b /\ x = y.
Proof.
  revert b. induction a as [|c a IH]; intros [|d b] Ha Hb H;
    rewrite ?append_cons_l, ?append_nil_l in H; simpl in Ha, Hb.
  - injection H as ->. auto.
  - injection H as <- _. apply andb_prop in Hb as [Hb _]. discriminate.
  - injection H as -> _. apply andb_prop in Ha as [Ha _]. discriminate.
  - injection H as -> H.
    apply andb_prop in Ha as [_ Ha]. apply andb_prop in Hb as [_ Hb].
    destruct (IH b Ha Hb H) as [-> ->]. auto.
Qed.

Lemma generateSessionId_truthy (e : ChatApi.entropy) :
  truthy (ChatApi.generateSessionId e) = true.
Proof. reflexivity. Qed.

(** Two generated identifiers are equal exactly when the clock readings
    and the random parts are. *)
Lemma generateSessionId_eq_iff (e1 e2 : ChatApi.entropy) :
  ChatApi.generateSessionId e1 = ChatApi.generateSessionId e2
  <-> ChatApi.now e1 = ChatApi.now e2 /\ random_part e1 = random_part e2.
Proof.
  unfold ChatApi.generateSessionId, random_part. split.
  - intros H. rewrite !append_cons_l, !append_nil_l in H.
    repeat match type of H with String _ _ = String _ _ => injection H as H end.
    apply digits_then_underscore_inj in H as [Hn Hr];
      auto using string_of_N_digits.
    split; [apply string_of_N_inj; exact Hn | exact Hr].
  - intros [-> ->]. reflexivity.
Qed.

Lemma substring_length_le (n m : nat) (s : string) :
  String.length (substring n m s) <= m.
Proof.
  revert n m. induction s as [|c s IH]; intros [|n] [|m]; simpl; try lia.
  - specialize (IH 0 m). lia.
  - apply (IH n 0).
  - apply (IH n (S m)).
Qed.

Lemma substring_all_base36 (n m : nat) (s : string) :
  all_base36 s = true -> all_base36 (substring n m s) = true.
Proof.
  revert n m. induction s as [|c s IH]; intros [|n] [|m] H; simpl in *;
    try reflexivity; apply andb_prop in H as [Hc Hs]; auto.
  rewrite Hc. simpl. auto.
Qed.

Lemma char36_digit36 (c : ascii) : is_base36 c = true -> char36 (digit36 c) = c.
Proof.
  unfold is_base36, char36, digit36. intros H.
  transitivity (ascii_of_N (N_of_ascii c)); [f_equal | apply ascii_N_embedding].
  destruct (N.leb_spec (N_of_ascii c) 57), (N.leb_spec 48 (N_of_ascii c)),
    (N.leb_spec 97 (N_of_ascii c)), (N.leb_spec (N_of_ascii c) 122);
    simpl in H; try discriminate;
    match goal with |- context [(?a <? 10)%N] => destruct (N.ltb_spec a 10) end;
    lia.
Qed.

Lemma digit36_bound (c : ascii) : is_base36 c = true -> (digit36 c < 36)%N.
Proof.
  unfold is_base36, digit36. intros H.
  destruct (N.leb_spec (N_of_ascii c) 57), (N.leb_spec 48 (N_of_ascii c)),
    (N.leb_spec 97 (N_of_ascii c)), (N.leb_spec (N_of_ascii c) 122);
    simpl in H; try discriminate; lia.
Qed.

Lemma unrank36_rank36 (s : string) (len : nat) :
  all_base36 s = true -> String.length s <= len -> unrank36 len (rank36 s) = s.
Proof.
  revert len. induction s as [|c s IH]; intros [|len] Hs Hl; simpl in *;
    try reflexivity; try lia.
  apply andb_prop in Hs as [Hc Hs].
  pose proof (digit36_bound c Hc) as Hd.
  assert (Hmod : ((digit36 c + 1 + 37 * rank36 s) mod 37 = digit36 c + 1)%N).
  { replace (digit36 c + 1 + 37 * rank36 s)%N
      with (digit36 c + 1 + rank36 s * 37)%N by lia.
    rewrite N.Div0.mod_add. apply N.mod_small. lia. }
  assert (Hdiv : ((digit36 c + 1 + 37 * rank36 s) / 37 = rank36 s)%N).
  { replace (digit36 c + 1 + 37 * rank36 s)%N
      with (digit36 c + 1 + rank36 s * 37)%N by lia.
    rewrite N.div_add by lia. rewrite N.div_small by lia. lia. }
  destruct (N.eqb_spec (digit36 c + 1 + 37 * rank36 s) 0) as [E|_]; [lia|].
  rewrite Hmod, Hdiv.
  replace (digit36 c + 1 - 1)%N with (digit36 c) by lia.
  rewrite char36_digit36 by exact Hc.
  f_equal. apply IH; [exact Hs | lia].
Qed.

Lemma rank36_bound (s : string) :
  all_base36 s = true -> (rank36 s < 37 ^ N.of_nat (String.length s))%N.
Proof.
  induction s as [|c s IH]; intros Hs; simpl String.length; simpl rank36.
  - simpl. lia.
  - simpl in Hs. apply andb_prop in Hs as [Hc Hs].
    pose proof (digit36_bound c Hc) as Hd. specialize (IH Hs).
    rewrite Nat2N.inj_succ, N.pow_succ_r by lia. lia.
Qed.

Lemma random_part_base36 (e : ChatApi.entropy) :
  is_random36 (ChatApi.random36 e) = true ->
  all_base36 (random_part e) = true /\ String.length (random_part e) <= 9.
Proof.
  unfold random_part, substr. intros H. split; [|apply substring_length_le].
  destruct (ChatApi.random36 e) as [|c0 [|c1 ds]]; try discriminate.
  - reflexivity.
  - unfold is_random36 in H.
    destruct (Ascii.eqb_spec c0 "0") as [->|Hne0].
    + destruct (Ascii.eqb_spec c1 ".") as [->|Hne1].
      * change (substring 2 9 (String "0" (String "." ds)))
          with (substring 0 9 ds).
        apply substring_all_base36. exact H.
      * exfalso. destruct c1 as [[] [] [] [] [] [] [] []]; try discriminate.
        apply Hne1. reflexivity.
    + exfalso. destruct c0 as [[] [] [] [] [] [] [] []]; try discriminate.
      apply Hne0. reflexivity.
Qed.

End Rendering.

(** ** The session identifier *)

Section SessionIdentity.

Lemma getSessionId_working (p : string) (e : ChatApi.entropy)
    (m : gmap string string) :
  ChatApi.getSessionId p e (Browser (working m)) =
    if truthy_opt (m !! ("chat_session_" +:+ p))
    then (Ret (default "" (m !! ("chat_session_" +:+ p))), Browser (working m))
    else (Ret (ChatApi.generateSessionId e),
          Browser (working (<["chat_session_" +:+ p := ChatApi.generateSessionId e]> m))).
Proof.
  unfold ChatApi.getSessionId, getItem, setItem, working. simpl.
  destruct (truthy_opt (m !! ("chat_session_" +:+ p))); reflexivity.
Qed.

(** With nothing stored for the product, [getSessionId] returns the
    generated identifier and leaves it stored under the product's key. *)
Lemma getSessionId_creates_and_persists (p : string) (e : ChatApi.entropy)
    (m : gmap string string) :
  m !! ("chat_session_" +:+ p) = None ->
  exists m',
    ChatApi.getSessionId p e (Browser (working m))
      = (Ret (ChatApi.generateSessionId e), Browser (working m'))
    /\ m' !! ("chat_session_" +:+ p) = Some (ChatApi.generateSessionId e).
Proof.
  intros Hnone. rewrite getSessionId_working, Hnone. simpl.
  eexists. split; [reflexivity|]. apply lookup_insert_eq.
Qed.

(** C1. The identifier that [generateSessionId] produces depends on
    [Math.random] through at most nine digits of radix 36: for a given
    clock reading it is one of fewer than 2^47 strings, far fewer than the
    2^122 that 122 bits of randomness would give. *)
Theorem generateSessionId_low_entropy (e : ChatApi.entropy) :
  is_random36 (ChatApi.random36 e) = true ->
  exists n : N,
    (n < 2 ^ 47)%N /\ (2 ^ 47 < 2 ^ 122)%N
    /\ ChatApi.generateSessionId e
       = "session_" +:+ string_of_N (ChatApi.now e) +:+ "_" +:+ unrank36 9 n.
Proof.
  intros Hr. destruct (random_part_base36 e Hr) as [Hb Hl].
  exists (rank36 (random_part e)). split; [|split].
  - pose proof (rank36_bound _ Hb) as Hlt.
    assert (Hpow : (37 ^ N.of_nat (String.length (random_part e)) <= 37 ^ 9)%N).
    { apply N.pow_le_mono_r; lia. }
    assert (H37 : (37 ^ 9 < 2 ^ 47)%N) by (vm_compute; reflexivity).
    lia.
  - vm_compute. reflexivity.
  - rewrite unrank36_rank36 by assumption. reflexivity.
Qed.

Lemma generateSessionId_low_entropy_witness :
  exists n : N,
    (n < 2 ^ 47)%N /\ (2 ^ 47 < 2 ^ 122)%N
    /\ ChatApi.generateSessionId draw_a
       = "session_" +:+ string_of_N 1700000000000 +:+ "_" +:+ unrank36 9 n.
Proof. apply (generateSessionId_low_entropy draw_a). reflexivity. Defined.

Lemma generateSessionId_collision :
  ChatApi.random36 draw_a <> ChatApi.random36 draw_b
  /\ ChatApi.generateSessionId draw_a = "session_1700000000000_abcdefghi"
  /\ ChatApi.generateSessionId draw_b = "session_1700000000000_abcdefghi".
Proof. split; [discriminate|]. split; reflexivity. Qed.

(** C2. In a browser whose storage works, a call of [getSessionId] for a
    product returns an identifier, and a second call on the storage that
    the first one left returns the same identifier and leaves the storage
    as it is, whatever the clock and [Math.random] read. *)
Theorem getSessionId_idempotent (p : string) (e1 e2 : ChatApi.entropy)
    (m : gmap string string) :
  exists (sid : string) (h : host),
    ChatApi.getSessionId p e1 (Browser (working m)) = (Ret sid, h)
    /\ ChatApi.getSessionId p e2 h = (Ret sid, h).
Proof.
  rewrite getSessionId_working.
  destruct (truthy_opt (m !! ("chat_session_" +:+ p))) eqn:Hm.
  - do 2 eexists. split; [reflexivity|].
    rewrite getSessionId_working, Hm. reflexivity.
  - do 2 eexists. split; [reflexivity|].
    rewrite getSessionId_working, lookup_insert_eq.
    cbn [truthy_opt default]. rewrite generateSessionId_truthy. reflexivity.
Qed.

(** The session effect of the product page is idempotent in the same
    sense, provided [crypto.randomUUID] returns a non-empty string. *)
Lemma init_session_idempotent (uuid1 uuid2 : string) (m : gmap string string)
    (s : Page.state) :
  truthy uuid1 = true ->
  exists (s1 s2 : Page.state) (ls1 : LocalStorage),
    Page.init_session uuid1 (working m) s = (Ret s1, ls1)
    /\ Page.init_session uuid2 ls1 s = (Ret s2, ls1)
    /\ Page.sessionId s2 = Page.sessionId s1.
Proof.
  intros Hu. unfold Page.init_session.
  destruct (truthy (Page.modelId s)); simpl.
  2:{ do 3 eexists. split; [reflexivity|]. split; reflexivity. }
  unfold getItem, setItem, working. simpl.
  destruct (truthy_opt (m !! ("session_" +:+ Page.modelId s))) eqn:Hm; simpl.
  - do 3 eexists. split; [reflexivity|]. simpl. rewrite Hm. simpl.
    split; reflexivity.
  - do 3 eexists. split; [reflexivity|]. simpl.
    rewrite lookup_insert_eq. simpl. rewrite Hu. simpl.
    split; reflexivity.
Qed.

(** C3. In a browser that refuses access to the storage, [getSessionId]
    throws to its caller instead of returning an identifier; so it does
    when nothing is stored for the product and the storage refuses the
    write. *)
Theorem getSessionId_throws_on_unavailable_storage
    (p : string) (e : ChatApi.entropy) (m : gmap string string) (q : bool) :
  fst (ChatApi.getSessionId p e (Browser (mkLocalStorage m true q)))
    = Throw SecurityError
  /\ fst (ChatApi.getSessionId p e (Browser (mkLocalStorage ∅ false true)))
     = Throw QuotaExceededError.
Proof.
  split; [reflexivity|].
  unfold ChatApi.getSessionId, getItem, setItem. simpl.
  rewrite lookup_empty. reflexivity.
Qed.

(** With nothing stored for the product, the session effect of the page
    stores the identifier that [crypto.randomUUID] returned and keeps it as
    the session of the page. *)
Lemma init_session_creates_and_persists (uuid : string) (m : gmap string string)
    (s : Page.state) :
  truthy (Page.modelId s) = true ->
  m !! ("session_" +:+ Page.modelId s) = None ->
  exists (s1 : Page.state) (m' : gmap string string),
    Page.init_session uuid (working m) s = (Ret s1, working m')
    /\ Page.sessionId s1 = Some uuid
    /\ m' !! ("session_" +:+ Page.modelId s) = Some uuid.
Proof.
  intros Hmodel Hnone. unfold Page.init_session, getItem, setItem, working.
  rewrite Hmodel. simpl. rewrite Hnone. simpl.
  do 2 eexists. split; [reflexivity|]. split; [reflexivity|].
  apply lookup_insert_eq.
Qed.

End SessionIdentity.

(** ** One chat request at a time *)

Section Serialization.

Lemma handleImageSelect_isSending (files : list File) (s : Page.state) :
  Page.isSending (fst (Page.handleImageSelect files s)) = Page.isSending s.
Proof.
  unfold Page.handleImageSelect.
  destruct (length files =? 0)%nat; [reflexivity|].
  destruct (_ <=? 0)%Z; [reflexivity|].
  destruct (Page.validate _ _ _). reflexivity.
Qed.

Lemma page_step_serial (e : Page.event) (w : Page.world) :
  page_serial w -> page_serial (Page.step e w).
Proof.
  unfold page_serial. destruct w as [pg rd st an]. intros H. simpl in H.
  destruct e as [t| |r|files|k previews|index|m]; simpl.
  - exact H.
  - unfold Page.handleSendMessage.
    destruct (Page.send_blocked pg) eqn:Hb; simpl; [exact H|].
    unfold Page.send_blocked in Hb. apply orb_false_iff in Hb as [_ Hs].
    rewrite Hs in H. rewrite length_app. simpl. lia.
  - destruct (Nat.ltb_spec an (length st)) as [Hlt|Hge]; simpl; [|exact H].
    destruct (Page.isSending pg); lia.
  - pose proof (handleImageSelect_isSending files pg) as Hi.
    destruct (Page.handleImageSelect files pg) as [s [validFiles|]];
      simpl in *; rewrite Hi; exact H.
  - destruct (rd !! k); simpl; exact H.
  - exact H.
  - unfold Page.handleModeSwitch. destruct (bool_decide _); exact H.
Qed.

Lemma page_run_serial (evs : list Page.event) (w : Page.world) :
  page_serial w -> page_serial (Page.run evs w).
Proof.
  unfold Page.run. revert w.
  induction evs as [|e evs IH]; intros w H; simpl; [exact H|].
  apply IH, page_step_serial, H.
Qed.

Lemma page_start_serial (model : string) : page_serial (Page.start model).
Proof. reflexivity. Qed.

(** While the page is sending, the handler issues nothing and the send
    button is disabled. *)
Lemma page_sending_blocks (s : Page.state) :
  Page.isSending s = true ->
  snd (Page.handleSendMessage s) = None /\ Page.send_disabled s = true.
Proof.
  intros Hs. unfold Page.handleSendMessage, Page.send_blocked, Page.send_disabled.
  rewrite Hs, orb_true_r. split; reflexivity.
Qed.

(** An event that hands a request to [fetch] finds the page idle. *)
Lemma page_issue_only_when_idle (e : Page.event) (w : Page.world) :
  length (Page.sent (Page.step e w)) <> length (Page.sent w) ->
  Page.isSending (Page.page w) = false.
Proof.
  destruct w as [pg rd st an].
  destruct e as [t| |r|files|k previews|index|m]; simpl; try congruence.
  - unfold Page.handleSendMessage.
    destruct (Page.send_blocked pg) eqn:Hb; simpl; [congruence|].
    unfold Page.send_blocked in Hb. apply orb_false_iff in Hb as [_ Hs].
    intros _. exact Hs.
  - destruct (an <? length st)%nat; simpl; congruence.
  - destruct (Page.handleImageSelect files pg) as [s [validFiles|]];
      simpl; congruence.
  - destruct (rd !! k); simpl; congruence.
Qed.

Lemma widget_submit_serial (env_url : option string) (w : Widget.world) :
  Widget.isLoading (Widget.widget w) = false ->
  widget_serial w -> widget_serial (Widget.submit env_url w).
Proof.
  unfold widget_serial, Widget.submit. intros Hl H. rewrite Hl in H.
  destruct (Widget.handleSubmit (Widget.input w)) as [i [p|]]; simpl.
  - unfold Widget.handleSendMessage.
    destruct (negb _ && negb _); simpl.
    + rewrite Hl. exact H.
    + rewrite length_app. simpl. lia.
  - rewrite Hl. exact H.
Qed.

Lemma widget_step_serial (env_url : option string) (chat_error : string)
    (e : Widget.event) (w : Widget.world) :
  widget_serial w -> widget_serial (Widget.step env_url chat_error e w).
Proof.
  intros H.
  destruct e as [t| | |file| |m|r]; simpl;
    unfold Widget.textarea_disabled, Widget.submit_disabled.
  - destruct (Widget.isLoading (Widget.widget w)); exact H.
  - destruct (Widget.isLoading (Widget.widget w)) eqn:Hl; [exact H|].
    apply widget_submit_serial; assumption.
  - destruct (Widget.isLoading (Widget.widget w)) eqn:Hl; [exact H|]. simpl.
    destruct (negb _ && negb _); [exact H|].
    apply widget_submit_serial; assumption.
  - exact H.
  - exact H.
  - exact H.
  - unfold widget_serial in *.
    destruct (Nat.ltb_spec (Widget.answered w) (length (Widget.sent w)));
      simpl; [|exact H].
    destruct (Widget.isLoading (Widget.widget w)); lia.
Qed.

Lemma widget_run_serial (env_url : option string) (chat_error : string)
    (evs : list Widget.event) (w : Widget.world) :
  widget_serial w -> widget_serial (Widget.run env_url chat_error evs w).
Proof.
  unfold Widget.run. revert w.
  induction evs as [|e evs IH]; intros w H; simpl; [exact H|].
  apply IH, widget_step_serial, H.
Qed.

(** An event that hands a request to [fetch] finds the widget idle. *)
Lemma widget_issue_only_when_idle (env_url : option string) (chat_error : string)
    (e : Widget.event) (w : Widget.world) :
  length (Widget.sent (Widget.step env_url chat_error e w))
    <> length (Widget.sent w) ->
  Widget.isLoading (Widget.widget w) = false.
Proof.
  destruct e as [t| | |file| |m|r]; simpl;
    unfold Widget.textarea_disabled, Widget.submit_disabled;
    destruct (Widget.isLoading (Widget.widget w)); simpl; try congruence.
  destruct (_ <? _)%nat; simpl; congruence.
Qed.

End Serialization.

(** ** Attaching images *)

Section Attachments.

Lemma validate_spec (files acc : list File) (err : option string) :
  fst (Page.validate files acc err)
    = acc ++ List.filter acceptable files.
Proof.
  revert acc err. induction files as [|f files IH]; intros acc err; simpl.
  - symmetry. apply app_nil_r.
  - unfold acceptable at 1.
    destruct (startsWith (file_type f) "image/"); simpl; [|apply IH].
    destruct (Page.MAX_BYTES <? file_size f)%N; simpl; [apply IH|].
    rewrite IH, <- app_assoc. reflexivity.
Qed.

Lemma validate_all_acceptable (files acc : list File) (err : option string) :
  Forall (fun f => acceptable f = true) files ->
  Page.validate files acc err = (acc ++ files, err).
Proof.
  revert acc. induction files as [|f files IH]; intros acc H; simpl.
  - rewrite app_nil_r. reflexivity.
  - inversion H as [|? ? Hf Hfs]; subst.
    unfold acceptable in Hf. apply andb_prop in Hf as [H1 H2].
    rewrite H1. apply negb_true_iff in H2. rewrite H2. simpl.
    rewrite IH by assumption. rewrite <- app_assoc. reflexivity.
Qed.

Lemma validate_keeps_error (files acc : list File) (err : option string) :
  is_Some err -> is_Some (snd (Page.validate files acc err)).
Proof.
  revert acc err. induction files as [|f files IH]; intros acc err Herr; simpl;
    [exact Herr|].
  destruct (startsWith (file_type f) "image/"); simpl;
    [destruct (Page.MAX_BYTES <? file_size f)%N; simpl|]; apply IH; eauto.
Qed.

(** A rejected file leaves a reason behind the loop: the error is set
    whenever some file of the selection is not acceptable. *)
Lemma validate_error (files acc : list File) (err : option string) :
  forallb acceptable files = false ->
  is_Some (snd (Page.validate files acc err)).
Proof.
  revert acc err. induction files as [|f files IH]; intros acc err; simpl;
    [discriminate|].
  unfold acceptable at 1.
  destruct (startsWith (file_type f) "image/"); simpl;
    [destruct (Page.MAX_BYTES <? file_size f)%N; simpl|];
    try solve [intros _; apply validate_keeps_error; eauto].
  apply IH.
Qed.

Lemma filter_acceptable_Forall (files : list File) :
  Forall (fun f => acceptable f = true) (List.filter acceptable files).
Proof.
  apply List.Forall_forall. intros f Hf.
  apply List.filter_In in Hf. tauto.
Qed.

(** The files for which [handleImageSelect] requests previews are
    acceptable and no more than the free slots it counted. *)
Lemma handleImageSelect_valid (files validFiles : list File) (s s1 : Page.state) :
  Page.handleImageSelect files s = (s1, Some validFiles) ->
  Forall (fun f => acceptable f = true) validFiles
  /\ length validFiles + length (Page.selectedImages s) <= Page.MAX_IMAGES
  /\ Page.selectedImages s1 = Page.selectedImages s.
Proof.
  unfold Page.handleImageSelect.
  destruct (length files =? 0)%nat; [discriminate|].
  destruct (Z.leb_spec (Z.of_nat Page.MAX_IMAGES
                        - Z.of_nat (length (Page.selectedImages s))) 0)
    as [Hle|Hgt]; [discriminate|].
  pose proof (validate_spec
                (firstn (Z.to_nat (Z.of_nat Page.MAX_IMAGES
                           - Z.of_nat (length (Page.selectedImages s)))) files)
                [] (Page.uploadError s)) as Hv.
  destruct (Page.validate _ _ _) as [v err]. simpl in Hv. subst v.
  intros [= <- <-]. split; [apply filter_acceptable_Forall|]. split; [|reflexivity].
  pose proof (List.filter_length_le acceptable
                (firstn (Z.to_nat (Z.of_nat Page.MAX_IMAGES
                           - Z.of_nat (length (Page.selectedImages s)))) files)) as H1.
  pose proof (firstn_le_length
                (Z.to_nat (Z.of_nat Page.MAX_IMAGES
                           - Z.of_nat (length (Page.selectedImages s)))) files) as H2.
  lia.
Qed.

(** With the limit reached, choosing files adds nothing and shows the
    limit message. *)
Lemma handleImageSelect_full (f : File) (files : list File) (s : Page.state) :
  Page.MAX_IMAGES <= length (Page.selectedImages s) ->
  Page.handleImageSelect (f :: files) s
    = (Page.setUploadError (Some "Maximum 3 images allowed") s, None).
Proof.
  intros Hfull. unfold Page.handleImageSelect. simpl length. simpl Nat.eqb.
  destruct (Z.leb_spec (Z.of_nat Page.MAX_IMAGES
                        - Z.of_nat (length (Page.selectedImages s))) 0)
    as [Hle|Hgt]; [reflexivity|lia].
Qed.

(** With free slots left, the files beyond them are dropped without a
    message: with two images selected and two acceptable files chosen, the
    first is taken and the upload error stays as it was. *)
Lemma handleImageSelect_truncates_silently (s : Page.state) (a b f g : File) :
  Page.selectedImages s = [a; b] ->
  acceptable f = true ->
  snd (Page.handleImageSelect [f; g] s) = Some [f]
  /\ Page.uploadError (fst (Page.handleImageSelect [f; g] s)) = Page.uploadError s.
Proof.
  intros Hsel Hf. unfold Page.handleImageSelect, Page.MAX_IMAGES.
  unfold acceptable in Hf. apply andb_prop in Hf as [Hty Hsz].
  apply negb_true_iff in Hsz.
  rewrite Hsel. simpl. rewrite Hty, Hsz. simpl.
  split; reflexivity.
Qed.

(** The input of the chat widget takes an image of any size and ignores
    any other file without a message. *)
Lemma chat_input_handleImageSelect_spec (f : File) (i : Widget.input_state) :
  Widget.handleImageSelect (Some f) i
    = if startsWith (file_type f) "image/"
      then Widget.mkInput (Widget.message i) (Some f)
      else i.
Proof. reflexivity. Qed.

End Attachments.

Section AttachmentInvariants.

Lemma remove_at_Forall {A} (P : A -> Prop) (k : nat) (l : list A) :
  Forall P l -> Forall P (Page.remove_at k l).
Proof.
  revert k. induction l as [|x l IH]; intros k H; simpl; [constructor|].
  inversion H; subst. destruct k; [assumption|]. constructor; auto.
Qed.

Lemma remove_at_length {A} (k : nat) (l : list A) :
  length (Page.remove_at k l) <= length l.
Proof.
  revert k. induction l as [|x l IH]; intros k; simpl; [lia|].
  destruct k; simpl; [lia|]. specialize (IH k). lia.
Qed.

Lemma remove_at_concat_length {A} (k : nat) (l : list (list A)) (v : list A) :
  l !! k = Some v ->
  length (concat l) = length v + length (concat (Page.remove_at k l)).
Proof.
  revert k. induction l as [|x l IH]; intros k H; [discriminate|].
  destruct k; simpl in *.
  - injection H as ->. apply length_app.
  - rewrite !length_app, (IH k H). lia.
Qed.

Lemma handleImageSelect_selected (files : list File) (s : Page.state) :
  Page.selectedImages (fst (Page.handleImageSelect files s))
    = Page.selectedImages s.
Proof.
  unfold Page.handleImageSelect.
  destruct (length files =? 0)%nat; [reflexivity|].
  destruct (_ <=? 0)%Z; [reflexivity|].
  destruct (Page.validate _ _ _). reflexivity.
Qed.

Lemma handleSendMessage_carries (s s1 : Page.state) (rq : request) :
  Page.handleSendMessage s = (s1, Some rq) ->
  carried_images (req_body rq) = Page.selectedImages s
  /\ Page.selectedImages s1 = [].
Proof.
  unfold Page.handleSendMessage. destruct (Page.send_blocked s); [discriminate|].
  intros [= <- <-]. split; [apply sendMessage_carries | reflexivity].
Qed.

Lemma handleSendMessage_idle (s s1 : Page.state) :
  Page.handleSendMessage s = (s1, None) -> s1 = s.
Proof.
  unfold Page.handleSendMessage. destruct (Page.send_blocked s); [|discriminate].
  intros [= <-]. reflexivity.
Qed.

(** No file that fails the validation is ever selected, read or sent. *)
Lemma page_step_clean (e : Page.event) (w : Page.world) :
  page_clean w -> page_clean (Page.step e w).
Proof.
  unfold page_clean. destruct w as [pg rd st an]. simpl.
  intros (Hsel & Hrd & Hst).
  destruct e as [t| |r|files|k previews|index|m]; simpl.
  - auto.
  - destruct (Page.handleSendMessage pg) as [s1 [rq|]] eqn:E; simpl.
    + apply handleSendMessage_carries in E as [Hc ->].
      repeat split; [constructor | assumption |].
      apply Forall_app. split; [assumption|].
      constructor; [rewrite Hc; assumption | constructor].
    + apply handleSendMessage_idle in E as ->. auto.
  - destruct (an <? length st)%nat; simpl; auto.
    unfold Page.handleSendMessage_settled.
    destruct (Api.sendMessage_result r); simpl; auto.
  - pose proof (handleImageSelect_selected files pg) as Hs.
    destruct (Page.handleImageSelect files pg) as [s1 [validFiles|]] eqn:E;
      simpl in *; rewrite Hs; repeat split; auto.
    apply handleImageSelect_valid in E as (Hv & _).
    apply Forall_app. split; [assumption|]. constructor; [assumption|constructor].
  - destruct (rd !! k) as [validFiles|] eqn:E; simpl; auto.
    repeat split; auto using remove_at_Forall.
    apply Forall_app. split; [assumption|].
    apply (proj1 (List.Forall_forall _ rd) Hrd validFiles).
    apply list_elem_of_In, list_elem_of_lookup. eauto.
  - repeat split; auto using remove_at_Forall.
  - unfold Page.handleModeSwitch. destruct (bool_decide _); simpl; auto.
Qed.

Lemma page_run_clean (evs : list Page.event) (w : Page.world) :
  page_clean w -> page_clean (Page.run evs w).
Proof.
  unfold Page.run. revert w.
  induction evs as [|e evs IH]; intros w H; simpl; [exact H|].
  apply IH, page_step_clean, H.
Qed.

(** The room-image upload hands a file to its parent exactly when the
    file is acceptable, and alerts with a reason otherwise. *)
Lemma processFile_spec (f : File) :
  (acceptable_room f = true ->
     ImageUpload.processFile f
       = [ImageUpload.ReadPreview f; ImageUpload.OnImageSelect f])
  /\ (acceptable_room f = false ->
        exists reason, ImageUpload.processFile f = [ImageUpload.Alert reason]).
Proof.
  unfold acceptable_room, ImageUpload.processFile.
  destruct (startsWith (file_type f) "image/"); simpl;
    [destruct (ImageUpload.MAX_BYTES <? file_size f)%N; simpl|];
    split; intros H; try discriminate; eauto.
Qed.

(** Used in an orderly way the page keeps within the limit. *)
Lemma step_orderly_within_limit (e : Page.event) (w : Page.world) :
  within_limit w -> within_limit (step_orderly e w).
Proof.
  unfold within_limit, step_orderly. destruct w as [pg rd st an]. simpl.
  intros (Hsum & Hst).
  destruct e as [t| |r|files|k previews|index|m]; simpl.
  - destruct rd; simpl; auto.
  - assert (Hgoal :
      let w' := match Page.handleSendMessage pg with
                | (s, None) => Page.mkWorld s rd st an
                | (s, Some rq) => Page.mkWorld s rd (st ++ [rq]) an
                end in
      length (Page.selectedImages (Page.page w'))
        + length (concat (Page.reading w')) <= Page.MAX_IMAGES
      /\ Forall (fun rq => length (carried_images (req_body rq)) <= Page.MAX_IMAGES)
                (Page.sent w')).
    { destruct (Page.handleSendMessage pg) as [s1 [rq|]] eqn:E; simpl.
      - apply handleSendMessage_carries in E as [Hc ->]. simpl.
        split; [lia|]. apply Forall_app. split; [assumption|].
        constructor; [rewrite Hc; lia | constructor].
      - apply handleSendMessage_idle in E as ->. auto. }
    destruct rd; exact Hgoal.
  - assert (Hgoal :
      let w' := if (an <? length st)%nat
                then Page.mkWorld (Page.handleSendMessage_settled r pg) rd st (S an)
                else Page.mkWorld pg rd st an in
      length (Page.selectedImages (Page.page w'))
        + length (concat (Page.reading w')) <= Page.MAX_IMAGES
      /\ Forall (fun rq => length (carried_images (req_body rq)) <= Page.MAX_IMAGES)
                (Page.sent w')).
    { destruct (an <? length st)%nat; simpl; auto.
      unfold Page.handleSendMessage_settled.
      destruct (Api.sendMessage_result r); simpl; auto. }
    destruct rd; exact Hgoal.
  - destruct rd as [|v rd]; simpl; [|auto].
    pose proof (handleImageSelect_selected files pg) as Hs.
    destruct (Page.handleImageSelect files pg) as [s1 [validFiles|]] eqn:E;
      simpl in *; rewrite Hs.
    + apply handleImageSelect_valid in E as (_ & Hlen & _).
      rewrite app_nil_r. split; [lia|assumption].
    + auto.
  - assert (Hgoal :
      let w' := match rd !! k with
                | Some validFiles =>
                    Page.mkWorld (Page.previews_loaded validFiles previews pg)
                                 (Page.remove_at k rd) st an
                | None => Page.mkWorld pg rd st an
                end in
      length (Page.selectedImages (Page.page w'))
        + length (concat (Page.reading w')) <= Page.MAX_IMAGES
      /\ Forall (fun rq => length (carried_images (req_body rq)) <= Page.MAX_IMAGES)
                (Page.sent w')).
    { destruct (rd !! k) as [validFiles|] eqn:E; simpl; auto.
      split; [|assumption].
      rewrite length_app. rewrite (remove_at_concat_length k rd validFiles E) in Hsum.
      lia. }
    destruct rd; exact Hgoal.
  - assert (Hgoal :
      length (Page.remove_at index (Page.selectedImages pg)) + length (concat rd)
        <= Page.MAX_IMAGES).
    { pose proof (remove_at_length index (Page.selectedImages pg)). lia. }
    destruct rd; simpl; auto.
  - unfold Page.handleModeSwitch.
    destruct rd; destruct (bool_decide _); simpl; auto.
Qed.

(** In an orderly use of the page no request carries more than
    [MAX_IMAGES] images. *)
Lemma orderly_submissions_within_limit (model : string) (evs : list Page.event) :
  Forall (fun rq => length (carried_images (req_body rq)) <= Page.MAX_IMAGES)
         (Page.sent (run_orderly evs (Page.start model))).
Proof.
  assert (H : within_limit (run_orderly evs (Page.start model))).
  { unfold run_orderly.
    assert (H0 : within_limit (Page.start model)).
    { split; simpl; [lia | constructor]. }
    revert H0. generalize (Page.start model).
    induction evs as [|e evs IH]; intros w H0; simpl; [exact H0|].
    apply IH, step_orderly_within_limit, H0. }
  exact (proj2 H).
Qed.

End AttachmentInvariants.

(** ** Sending and attaching, from the first render on *)

Section SendingAndAttaching.

(** C5. A file that the product page rejects is never selected, but the
    reason shown for it does not stay: the page requests the previews of
    the remaining valid files, and when they are read, at once when there
    are none, the callback clears the upload error. *)
Theorem rejection_reason_cleared (model : string) (f : File) (previews : list string) :
  acceptable f = false ->
  let w1 := Page.step (Page.ChooseFiles [f]) (Page.start model) in
  let w2 := Page.step (Page.PreviewsRead 0 previews) w1 in
  is_Some (Page.uploadError (Page.page w1))
  /\ Page.reading w1 = [[]]
  /\ Page.selectedImages (Page.page w2) = []
  /\ Page.uploadError (Page.page w2) = None.
Proof.
  intros Hf. unfold acceptable in Hf. simpl.
  unfold Page.handleImageSelect. simpl.
  destruct (startsWith (file_type f) "image/"); simpl;
    [destruct (Page.MAX_BYTES <? file_size f)%N; simpl;
       [|discriminate]|];
    repeat split; eauto.
Qed.

Lemma rejection_reason_cleared_witness :
  Page.uploadError
    (Page.page (Page.step (Page.ChooseFiles [manual_pdf]) (Page.start "CM-FF-360-BLACK")))
    = Some "Only images are allowed (PNG, JPG, JPEG, WEBP)"
  /\ Page.uploadError
       (Page.page (Page.run [Page.ChooseFiles [manual_pdf]; Page.PreviewsRead 0 []]
                     (Page.start "CM-FF-360-BLACK")))
     = None.
Proof.
  split; [reflexivity|].
  apply (rejection_reason_cleared "CM-FF-360-BLACK" manual_pdf []).
  reflexivity.
Defined.

(** C9. When three acceptable images are chosen and three more are chosen
    before the previews of the first three are read, both selections are
    accepted, and the next submission carries all six images. *)
Theorem overlapping_selections_exceed_limit
    (model : string) (fs1 fs2 : list File) (pv1 pv2 : list string) :
  length fs1 = 3 -> length fs2 = 3 ->
  Forall (fun f => acceptable f = true) fs1 ->
  Forall (fun f => acceptable f = true) fs2 ->
  map (fun rq => carried_images (req_body rq))
      (Page.sent (Page.run (overlapping fs1 fs2 pv1 pv2) (Page.start model)))
    = [fs1 ++ fs2].
Proof.
  intros L1 L2 H1 H2.
  assert (Hsel : forall fs, length fs = 3 ->
            Forall (fun f => acceptable f = true) fs ->
            Page.handleImageSelect fs (Page.initial model)
              = (Page.initial model, Some fs)).
  { intros fs L H. unfold Page.handleImageSelect, Page.MAX_IMAGES.
    rewrite L. simpl. rewrite firstn_all2 by lia.
    rewrite validate_all_acceptable by assumption. reflexivity. }
  unfold overlapping, Page.run. simpl.
  rewrite (Hsel fs1 L1 H1). simpl. rewrite (Hsel fs2 L2 H2). simpl.
  unfold Page.handleSendMessage, Page.send_blocked. simpl.
  destruct fs1 as [|a fs1]; [discriminate|]. simpl.
  f_equal. apply (sendMessage_carries "" model PRE_PURCHASE ((a :: fs1) ++ fs2) None).
Qed.

Lemma overlapping_selections_exceed_limit_witness :
  map (fun rq => length (carried_images (req_body rq)))
      (Page.sent
         (Page.run
            (overlapping [photo "a"; photo "b"; photo "c"]
                         [photo "d"; photo "e"; photo "f"] [] [])
            (Page.start "CM-FF-360-BLACK")))
    = [6].
Proof.
  pose proof (overlapping_selections_exceed_limit "CM-FF-360-BLACK"
                [photo "a"; photo "b"; photo "c"]
                [photo "d"; photo "e"; photo "f"] [] []
                eq_refl eq_refl) as H.
  rewrite <- (List.map_map (fun rq => carried_images (req_body rq)) (@length File)).
  rewrite H.
  - reflexivity.
  - repeat constructor.
  - repeat constructor.
Defined.

End SendingAndAttaching.

(** * Further properties of the code *)

(** ** Sessions in the storage *)

Section StoredSessions.

Lemma append_inj_r (a x y : string) : a +:+ x = a +:+ y -> x = y.
Proof.
  induction a as [|c a IH]; intros H.
  - exact H.
  - rewrite !append_cons_l in H. injection H as H. auto.
Qed.

Lemma widget_key_inj (p q : string) : widget_key p = widget_key q -> p = q.
Proof. apply append_inj_r. Qed.

Lemma page_key_not_widget_key (a b : string) : page_key a <> widget_key b.
Proof. unfold page_key, widget_key. rewrite !append_cons_l. discriminate. Qed.

(** A call of [getSessionId] for one product leaves what is stored for
    every other product as it was. *)
Theorem getSessionId_keeps_other_products
    (p q : string) (e : ChatApi.entropy) (m : gmap string string) :
  p <> q ->
  exists (sid : string) (h : host),
    ChatApi.getSessionId p e (Browser (working m)) = (Ret sid, h)
    /\ stored h !! widget_key q = m !! widget_key q.
Proof.
  intros Hpq. rewrite getSessionId_working.
  destruct (truthy_opt (m !! ("chat_session_" +:+ p))).
  - do 2 eexists. split; reflexivity.
  - do 2 eexists. split; [reflexivity|]. simpl.
    apply lookup_insert_ne. intros H. apply Hpq, widget_key_inj, H.
Qed.

Lemma getSessionId_keeps_other_products_witness :
  exists (sid : string) (h : host),
    ChatApi.getSessionId "CM-FF-360-BLACK" draw_a
      (Browser (working {[ widget_key "WM-700" := "session_1_x" ]})) = (Ret sid, h)
    /\ stored h !! widget_key "WM-700" = Some "session_1_x".
Proof.
  destruct (getSessionId_keeps_other_products "CM-FF-360-BLACK" "WM-700" draw_a
              {[ widget_key "WM-700" := "session_1_x" ]})
    as (sid & h & H1 & H2); [discriminate|].
  exists sid, h. split; [exact H1|].
  rewrite H2. apply lookup_singleton_eq.
Defined.

(** An identifier already stored for the product is returned as it is and
    nothing is written, also when the storage refuses writes. *)
Theorem getSessionId_reads_without_writing
    (p sid : string) (e : ChatApi.entropy) (m : gmap string string) (full : bool) :
  m !! widget_key p = Some sid -> sid <> "" ->
  ChatApi.getSessionId p e (Browser (mkLocalStorage m false full))
    = (Ret sid, Browser (mkLocalStorage m false full)).
Proof.
  intros Hm Hsid. unfold ChatApi.getSessionId, getItem. simpl.
  unfold widget_key in Hm. rewrite Hm. simpl.
  apply truthy_true_iff in Hsid. rewrite Hsid. reflexivity.
Qed.

Lemma getSessionId_reads_without_writing_witness :
  ChatApi.getSessionId "WM-700" draw_a
    (Browser (mkLocalStorage {[ widget_key "WM-700" := "session_1_x" ]} false true))
    = (Ret "session_1_x",
       Browser (mkLocalStorage {[ widget_key "WM-700" := "session_1_x" ]} false true)).
Proof.
  apply getSessionId_reads_without_writing; [apply lookup_singleton_eq | discriminate].
Defined.


(** The product page and the widget keep their sessions under keys that
    never coincide: the session effect of the page leaves every entry of
    the widget as it was, and [getSessionId] every entry of the page. *)
Theorem page_and_widget_sessions_separate
    (uuid p model : string) (e : ChatApi.entropy) (m : gmap string string)
    (s : Page.state) :
  items (snd (Page.init_session uuid (working m) s)) !! widget_key p
    = m !! widget_key p
  /\ stored (snd (ChatApi.getSessionId p e (Browser (working m)))) !! page_key model
     = m !! page_key model.
Proof.
  split.
  - unfold Page.init_session, getItem, setItem, working.
    destruct (truthy (Page.modelId s)); simpl; [|reflexivity].
    destruct (truthy_opt (m !! ("session_" +:+ Page.modelId s))); simpl;
      [reflexivity|].
    apply lookup_insert_ne. apply page_key_not_widget_key.
  - rewrite getSessionId_working.
    destruct (truthy_opt (m !! ("chat_session_" +:+ p))); simpl; [reflexivity|].
    apply lookup_insert_ne. intros H. symmetry in H.
    exact (page_key_not_widget_key _ _ H).
Qed.

End StoredSessions.

(** ** The form of a chat request *)

Section RequestForms.

Lemma getAll_files_same (name : string) (files : list File) :
  getAll (map (fun f => (name, FFile f)) files) name = map FFile files.
Proof.
  unfold getAll. induction files as [|f files IH]; simpl; [reflexivity|].
  rewrite bool_decide_eq_true_2 by reflexivity. simpl. f_equal. exact IH.
Qed.

Lemma or_empty_id (message : string) : Api.or_empty message = message.
Proof. destruct message; reflexivity. Qed.

(** Whatever the attachments and the session, the form of [api.sendMessage]
    holds the message, the model and the mode once each, as given, and the
    attached files once each under [images], in the order given; a single
    file passed instead of an array is sent as one image. *)
Theorem sendMessage_fields
    (message modelId : string) (mode : Mode) (imageFiles : Api.image_files)
    (sid : option string) :
  let fd := Api.sendMessage_form message modelId mode imageFiles sid in
  getAll fd "message" = [FText message]
  /\ getAll fd "model_id" = [FText modelId]
  /\ getAll fd "mode" = [FText (mode_string mode)]
  /\ getAll fd "images" = map FFile (Api.images_of imageFiles)
  /\ carried_images fd = Api.images_of imageFiles.
Proof.
  unfold Api.sendMessage_form. rewrite or_empty_id.
  destruct (Api.images_of imageFiles) as [|f images] eqn:Hi.
  - simpl. destruct (truthy_opt sid); repeat split; reflexivity.
  - cbn [length Nat.ltb Nat.leb].
    rewrite append_files_spec, !getAll_app, carried_images_app,
      carried_images_files, getAll_files_same.
    rewrite !getAll_files_other by discriminate.
    destruct (truthy_opt sid); repeat split; reflexivity.
Qed.

(** The form of [api.sendMessage] carries the session identifier in one
    field when the identifier is a non-empty string, and in no field when
    it is [null] or empty. *)
Theorem sendMessage_session_at_most_once
    (message modelId : string) (mode : Mode) (imageFiles : Api.image_files)
    (sid : option string) :
  session_fields (Api.sendMessage_form message modelId mode imageFiles sid)
    = if truthy_opt sid then 1 else 0.
Proof.
  unfold session_fields, Api.sendMessage_form.
  destruct (Api.images_of imageFiles) as [|f images].
  - simpl. destruct (truthy_opt sid); reflexivity.
  - cbn [length Nat.ltb Nat.leb].
    rewrite append_files_spec, !getAll_app.
    rewrite !getAll_files_other by discriminate.
    destruct (truthy_opt sid); reflexivity.
Qed.

(** The form of [sendChatMessage] is the five text fields followed by the
    images in the order given; a missing language, mode or image list is
    sent as [en], [PRE_PURCHASE] and no image. *)
Theorem sendChatMessage_form_spec (p : ChatApi.params) :
  ChatApi.sendChatMessage_form p
    = [("model_id", FText (ChatApi.productId p));
       ("message", FText (ChatApi.message p));
       ("conversation_id", FText (ChatApi.sessionId p));
       ("mode", FText (match ChatApi.mode p with
                       | Some POST_PURCHASE => "POST_PURCHASE"
                       | _ => "PRE_PURCHASE"
                       end));
       ("language", FText (match ChatApi.language p with
                           | Some l => l
                           | None => "en"
                           end))]
      ++ map (fun f => ("images", FFile f))
             (match ChatApi.images p with Some l => l | None => [] end)
  /\ carried_images (ChatApi.sendChatMessage_form p)
     = match ChatApi.images p with Some l => l | None => [] end.
Proof.
  unfold ChatApi.sendChatMessage_form.
  rewrite append_files_spec, carried_images_app, carried_images_files.
  destruct (ChatApi.mode p) as [[]|], (ChatApi.language p), (ChatApi.images p);
    split; reflexivity.
Qed.

End RequestForms.

(** ** The conversation of the product page *)

Section PageConversation.

Lemma expected_roles_send (n : nat) :
  expected_roles n false ++ ["user"] = expected_roles n true.
Proof. unfold expected_roles. rewrite app_nil_r. reflexivity. Qed.

Lemma expected_roles_settle (n : nat) :
  expected_roles n true ++ ["assistant"] = expected_roles (S n) false.
Proof.
  unfold expected_roles. rewrite app_nil_r, <- app_assoc.
  change (concat (repeat ["user"; "assistant"] (S n)))
    with (concat (repeat ["user"; "assistant"] (1 + n))).
  rewrite Nat.add_comm, repeat_app, concat_app. reflexivity.
Qed.

Lemma shown_content_not_empty (userMessage : string) (images : list File) :
  Page.shown_content userMessage images <> "".
Proof.
  unfold Page.shown_content. destruct (truthy userMessage) eqn:Ht.
  - apply truthy_true_iff, Ht.
  - apply truthy_true_iff. reflexivity.
Qed.

Lemma handleImageSelect_messages (files : list File) (s : Page.state) :
  Page.messages (fst (Page.handleImageSelect files s)) = Page.messages s.
Proof.
  unfold Page.handleImageSelect.
  destruct (length files =? 0)%nat; [reflexivity|].
  destruct (_ <=? 0)%Z; [reflexivity|].
  destruct (Page.validate _ _ _). reflexivity.
Qed.

Lemma page_step_dialogue (e : Page.event) (w : Page.world) :
  dialogue w -> dialogue (Page.step e w).
Proof.
  intros (Hserial & Hroles & Hcontent).
  split; [apply page_step_serial, Hserial|].
  destruct w as [pg rd st an]. unfold page_serial in Hserial. simpl in *.
  destruct e as [t| |r|files|k previews|index|m]; simpl.
  - auto.
  - unfold Page.handleSendMessage.
    destruct (Page.send_blocked pg) eqn:Hb; simpl; [auto|].
    unfold Page.send_blocked in Hb. apply orb_false_iff in Hb as [_ Hs].
    rewrite Hs in Hroles. rewrite map_app, Hroles. simpl.
    split; [apply expected_roles_send|].
    apply Forall_app. split; [assumption|].
    constructor; [|constructor]. right. apply shown_content_not_empty.
  - destruct (Nat.ltb_spec an (length st)) as [Hlt|Hge]; simpl; [|auto].
    assert (Hs : Page.isSending pg = true).
    { destruct (Page.isSending pg); [reflexivity|lia]. }
    rewrite Hs in Hroles. unfold Page.handleSendMessage_settled.
    destruct (Api.sendMessage_result r); simpl;
      rewrite map_app, Hroles; simpl;
      (split; [apply expected_roles_settle|]);
      apply Forall_app; (split; [assumption|]);
      (constructor; [left; reflexivity | constructor]).
  - pose proof (handleImageSelect_messages files pg) as Hm.
    pose proof (handleImageSelect_isSending files pg) as Hi.
    destruct (Page.handleImageSelect files pg) as [s [validFiles|]];
      simpl in *; rewrite Hm, Hi; auto.
  - destruct (rd !! k); simpl; auto.
  - auto.
  - unfold Page.handleModeSwitch. destruct (bool_decide _); simpl; auto.
Qed.

Lemma page_run_dialogue (evs : list Page.event) (w : Page.world) :
  dialogue w -> dialogue (Page.run evs w).
Proof.
  unfold Page.run. revert w.
  induction evs as [|e evs IH]; intros w H; simpl; [exact H|].
  apply IH, page_step_dialogue, H.
Qed.

Lemma page_start_dialogue (model : string) : dialogue (Page.start model).
Proof. split; [reflexivity|]. split; [reflexivity|constructor]. Qed.

End PageConversation.

(** ** Selected images and their previews *)

Section ImagesAndPreviews.

Lemma remove_at_lookup {A} (k i : nat) (l : list A) :
  Page.remove_at k l !! i = if (i <? k)%nat then l !! i else l !! S i.
Proof.
  revert k i. induction l as [|x l IH]; intros k i; simpl.
  - destruct (i <? k)%nat; reflexivity.
  - destruct k as [|k]; [reflexivity|].
    destruct i as [|i]; [reflexivity|]. simpl.
    rewrite IH. reflexivity.
Qed.

Lemma remove_at_length_eq {A B} (k : nat) (l : list A) (l' : list B) :
  length l = length l' ->
  length (Page.remove_at k l) = length (Page.remove_at k l').
Proof.
  revert k l'. induction l as [|x l IH]; intros k [|y l'] H; simpl in *;
    try reflexivity; try discriminate.
  destruct k; [lia|]. simpl. f_equal. apply IH. lia.
Qed.

(** Removing the image at an index removes that image and its preview and
    nothing else: the entries before keep their place, the entries after
    move up by one, and an index past the end changes neither list. The
    upload error is cleared. *)
Theorem handleRemoveImage_spec (index i : nat) (s : Page.state) :
  let s' := Page.handleRemoveImage index s in
  Page.selectedImages s' !! i
    = (if (i <? index)%nat then Page.selectedImages s !! i
       else Page.selectedImages s !! S i)
  /\ Page.imagePreviews s' !! i
     = (if (i <? index)%nat then Page.imagePreviews s !! i
        else Page.imagePreviews s !! S i)
  /\ Page.uploadError s' = None.
Proof.
  simpl. split; [apply remove_at_lookup|]. split; [apply remove_at_lookup|reflexivity].
Qed.

Lemma handleImageSelect_previews (files : list File) (s : Page.state) :
  Page.imagePreviews (fst (Page.handleImageSelect files s)) = Page.imagePreviews s.
Proof.
  unfold Page.handleImageSelect.
  destruct (length files =? 0)%nat; [reflexivity|].
  destruct (_ <=? 0)%Z; [reflexivity|].
  destruct (Page.validate _ _ _). reflexivity.
Qed.

Lemma step_reader_aligned (e : Page.event) (w : Page.world) :
  length (Page.selectedImages (Page.page w)) = length (Page.imagePreviews (Page.page w)) ->
  length (Page.selectedImages (Page.page (step_reader e w)))
    = length (Page.imagePreviews (Page.page (step_reader e w))).
Proof.
  intros H. unfold step_reader.
  destruct (reads_match e w) eqn:Hr; [|exact H].
  destruct w as [pg rd st an]. simpl in *.
  destruct e as [t| |r|files|k previews|index|m]; simpl.
  - exact H.
  - unfold Page.handleSendMessage.
    destruct (Page.send_blocked pg); simpl; [exact H|reflexivity].
  - destruct (an <? length st)%nat; simpl; [|exact H].
    unfold Page.handleSendMessage_settled.
    destruct (Api.sendMessage_result r); exact H.
  - pose proof (handleImageSelect_selected files pg) as H1.
    pose proof (handleImageSelect_previews files pg) as H2.
    destruct (Page.handleImageSelect files pg) as [s [validFiles|]];
      simpl in *; rewrite H1, H2; exact H.
  - simpl in Hr. destruct (rd !! k) as [validFiles|]; simpl; [|exact H].
    apply Nat.eqb_eq in Hr. rewrite !length_app. lia.
  - apply remove_at_length_eq, H.
  - unfold Page.handleModeSwitch. destruct (bool_decide _); exact H.
Qed.

(** When every read of previews delivers one preview per file, the page
    always has as many previews as selected images, so that the preview at
    an index is the one of the image at that index. *)
Theorem previews_match_images (model : string) (evs : list Page.event) :
  let w := run_reader evs (Page.start model) in
  length (Page.selectedImages (Page.page w)) = length (Page.imagePreviews (Page.page w)).
Proof.
  unfold run_reader.
  assert (H0 : length (Page.selectedImages (Page.page (Page.start model)))
               = length (Page.imagePreviews (Page.page (Page.start model))))
    by reflexivity.
  revert H0. generalize (Page.start model).
  induction evs as [|e evs IH]; intros w H0; simpl; [exact H0|].
  apply IH, step_reader_aligned, H0.
Qed.

(** Whatever the user chooses and in whatever order the reads finish, every
    file that the page sends has an image type and at most [MAX_BYTES]
    bytes. *)
Theorem page_sends_only_acceptable_files (model : string) (evs : list Page.event) :
  Forall (fun rq => Forall (fun f => acceptable f = true)
                           (carried_images (req_body rq)))
         (Page.sent (Page.run evs (Page.start model))).
Proof.
  assert (H : page_clean (Page.run evs (Page.start model))).
  { apply page_run_clean. repeat split; constructor. }
  exact (proj2 (proj2 H)).
Qed.

(** With free slots left, [handleImageSelect] first cuts the chosen files
    to the number of free slots and then keeps the acceptable ones among
    them, in order: a rejected file among the first ones uses up a slot. *)
Theorem handleImageSelect_cuts_then_validates (files : list File) (s : Page.state) :
  files <> [] ->
  length (Page.selectedImages s) < Page.MAX_IMAGES ->
  snd (Page.handleImageSelect files s)
    = Some (List.filter acceptable
              (firstn (Page.MAX_IMAGES - length (Page.selectedImages s)) files)).
Proof.
  intros Hne Hfree. unfold Page.handleImageSelect.
  destruct files as [|f files]; [contradiction|]. cbn [length Nat.eqb].
  destruct (Z.leb_spec (Z.of_nat Page.MAX_IMAGES
                        - Z.of_nat (length (Page.selectedImages s))) 0)
    as [Hle|Hgt]; [lia|].
  replace (Z.to_nat (Z.of_nat Page.MAX_IMAGES
                     - Z.of_nat (length (Page.selectedImages s))))
    with (Page.MAX_IMAGES - length (Page.selectedImages s)) by lia.
  pose proof (validate_spec
                (firstn (Page.MAX_IMAGES - length (Page.selectedImages s)) (f :: files))
                [] (Page.uploadError s)) as Hv.
  destruct (Page.validate _ _ _) as [v err]. simpl in Hv. subst v. reflexivity.
Qed.

Lemma handleImageSelect_cuts_then_validates_witness :
  snd (Page.handleImageSelect
         [manual_pdf; photo "a"; photo "b"; photo "c"]
         (Page.initial "CM-FF-360-BLACK"))
    = Some [photo "a"; photo "b"].
Proof.
  rewrite handleImageSelect_cuts_then_validates.
  - reflexivity.
  - discriminate.
  - unfold Page.MAX_IMAGES. simpl. lia.
Defined.

End ImagesAndPreviews.

(** ** The session and model of the requests *)

Section RequestIdentity.

Lemma sendMessage_identity (message modelId sid : string) (mode : Mode)
    (images : list File) :
  truthy sid = true ->
  page_request_of modelId sid
    (Api.sendMessage_request message modelId mode (Api.FileArray images) (Some sid)).
Proof.
  intros Hsid. unfold page_request_of, Api.sendMessage_request. cbn [req_body].
  unfold Api.sendMessage_form. simpl Api.images_of.
  cbn [truthy_opt default]. rewrite Hsid.
  destruct images as [|f images].
  - split; reflexivity.
  - cbn [length Nat.ltb Nat.leb].
    rewrite append_files_spec, !getAll_app.
    rewrite !getAll_files_other by discriminate.
    split; reflexivity.
Qed.

Lemma handleImageSelect_identity (files : list File) (s : Page.state) :
  Page.modelId (fst (Page.handleImageSelect files s)) = Page.modelId s
  /\ Page.sessionId (fst (Page.handleImageSelect files s)) = Page.sessionId s.
Proof.
  unfold Page.handleImageSelect.
  destruct (length files =? 0)%nat; [split; reflexivity|].
  destruct (_ <=? 0)%Z; [split; reflexivity|].
  destruct (Page.validate _ _ _). split; reflexivity.
Qed.

Lemma page_step_identity (model sid : string) (e : Page.event) (w : Page.world) :
  truthy sid = true ->
  Page.modelId (Page.page w) = model /\ Page.sessionId (Page.page w) = Some sid
  /\ Forall (page_request_of model sid) (Page.sent w) ->
  Page.modelId (Page.page (Page.step e w)) = model
  /\ Page.sessionId (Page.page (Page.step e w)) = Some sid
  /\ Forall (page_request_of model sid) (Page.sent (Page.step e w)).
Proof.
  intros Hsid (Hm & Hs & Hsent). destruct w as [pg rd st an]. simpl in *.
  destruct e as [t| |r|files|k previews|index|m]; simpl.
  - auto.
  - unfold Page.handleSendMessage.
    destruct (Page.send_blocked pg); simpl; [auto|].
    repeat split; auto.
    apply Forall_app. split; [assumption|]. constructor; [|constructor].
    rewrite Hm, Hs. apply sendMessage_identity, Hsid.
  - destruct (an <? length st)%nat; simpl; [|auto].
    unfold Page.handleSendMessage_settled.
    destruct (Api.sendMessage_result r); simpl; auto.
  - destruct (handleImageSelect_identity files pg) as [H1 H2].
    destruct (Page.handleImageSelect files pg) as [s [validFiles|]];
      simpl in *; rewrite H1, H2; auto.
  - destruct (rd !! k); simpl; auto.
  - auto.
  - unfold Page.handleModeSwitch. destruct (bool_decide _); simpl; auto.
Qed.

(** Once the session effect has set a non-empty session identifier, every
    chat request of the page names the model of the page and carries that
    identifier, once, under [session_id] or [conversation_id], whatever
    the user does in between. *)
Theorem page_requests_keep_session (model sid : string) (evs : list Page.event) :
  truthy sid = true ->
  Forall (page_request_of model sid)
         (Page.sent (Page.run evs (start_in_session model sid))).
Proof.
  intros Hsid.
  assert (H : Page.modelId (Page.page (Page.run evs (start_in_session model sid))) = model
              /\ Page.sessionId (Page.page (Page.run evs (start_in_session model sid)))
                 = Some sid
              /\ Forall (page_request_of model sid)
                        (Page.sent (Page.run evs (start_in_session model sid)))).
  { unfold Page.run.
    assert (H0 : Page.modelId (Page.page (start_in_session model sid)) = model
                 /\ Page.sessionId (Page.page (start_in_session model sid)) = Some sid
                 /\ Forall (page_request_of model sid)
                           (Page.sent (start_in_session model sid))).
    { repeat split. constructor. }
    revert H0. generalize (start_in_session model sid).
    induction evs as [|e evs IH]; intros w H0; simpl; [exact H0|].
    apply IH, page_step_identity; assumption. }
  exact (proj2 (proj2 H)).
Qed.

Lemma page_requests_keep_session_witness :
  map (fun rq => (getAll (req_body rq) "session_id",
                  getAll (req_body rq) "conversation_id"))
      (Page.sent (Page.run [Page.TypeText "hi"; Page.Send]
                    (start_in_session "CM-FF-360-BLACK" "s1")))
    = [([], [FText "s1"])]
  /\ Forall (page_request_of "CM-FF-360-BLACK" "s1")
            (Page.sent (Page.run [Page.TypeText "hi"; Page.Send]
                          (start_in_session "CM-FF-360-BLACK" "s1"))).
Proof.
  split; [reflexivity|].
  apply page_requests_keep_session. reflexivity.
Defined.

End RequestIdentity.

(** ** The chat widget *)

Section WidgetRequests.

Lemma widget_request_built (env_url : option string) (p : Widget.payload)
    (s s1 : Widget.state) (rq : request) :
  match Widget.p_image p with
  | Some f => startsWith (file_type f) "image/" = true
  | None => True
  end ->
  Widget.handleSendMessage env_url p s = (s1, Some rq) ->
  widget_request_of (Widget.product_id s) (Widget.sessionId s) rq
  /\ Widget.product_id s1 = Widget.product_id s
  /\ Widget.sessionId s1 = Widget.sessionId s.
Proof.
  intros Himg. unfold Widget.handleSendMessage.
  destruct (negb _ && negb _); [discriminate|].
  intros [= <- <-]. split; [|split; reflexivity].
  unfold widget_request_of, ChatApi.sendChatMessage_request. cbn [req_body].
  destruct (sendChatMessage_form_spec
              (ChatApi.mkParams (Widget.product_id s) (Widget.p_message p)
                 (Widget.sessionId s) (Some (Widget.language s))
                 (Some (Widget.mode s))
                 (Some (match Widget.p_image p with Some f => [f] | None => [] end))))
    as [Hform Hcarried].
  rewrite Hcarried. rewrite Hform. cbn [ChatApi.images ChatApi.productId ChatApi.sessionId].
  rewrite !getAll_app, !getAll_files_other by discriminate.
  repeat split.
  - destruct (Widget.p_image p); simpl; lia.
  - destruct (Widget.p_image p); constructor; [exact Himg|constructor].
Qed.

Lemma widget_submit_bound (env_url : option string) (product sid : string)
    (w : Widget.world) :
  widget_bound product sid w -> widget_bound product sid (Widget.submit env_url w).
Proof.
  intros (Hp & Hs & Himg & Hsent). unfold Widget.submit, Widget.handleSubmit.
  destruct (negb _ && negb _); simpl.
  - repeat split; assumption.
  - destruct (Widget.handleSendMessage env_url
                (Widget.mkPayload (trim (Widget.message (Widget.input w)))
                                  (Widget.selectedImage (Widget.input w)))
                (Widget.widget w)) as [s1 [rq|]] eqn:E.
    + apply widget_request_built in E as (Hrq & H1 & H2); [|exact Himg].
      rewrite Hp, Hs in *.
      repeat split; simpl; auto.
      apply Forall_app. split; [assumption|]. constructor; [exact Hrq|constructor].
    + unfold Widget.handleSendMessage in E.
      destruct (negb _ && negb _); [|discriminate].
      injection E as <-. repeat split; simpl; auto.
Qed.

Lemma widget_step_bound (env_url : option string) (chat_error product sid : string)
    (e : Widget.event) (w : Widget.world) :
  widget_bound product sid w ->
  widget_bound product sid (Widget.step env_url chat_error e w).
Proof.
  intros H. pose proof H as (Hp & Hs & Himg & Hsent).
  destruct e as [t| | |file| |m|r]; simpl.
  - destruct (Widget.textarea_disabled w); [exact H|]. repeat split; assumption.
  - destruct (Widget.textarea_disabled w); [exact H|].
    apply widget_submit_bound, H.
  - destruct (Widget.submit_disabled w); [exact H|].
    apply widget_submit_bound, H.
  - repeat split; simpl; try assumption.
    unfold Widget.handleImageSelect.
    destruct file as [f|]; [|exact Himg].
    destruct (startsWith (file_type f) "image/") eqn:Hf; simpl; [exact Hf|exact Himg].
  - repeat split; simpl; assumption || exact I.
  - repeat split; simpl; assumption.
  - destruct (_ <? _)%nat; [|exact H].
    unfold Widget.handleSendMessage_settled.
    destruct (ChatApi.sendChatMessage_result r); repeat split; simpl; assumption.
Qed.

(** From its mount on, every request of the widget names the product of
    the widget and the session identifier it was mounted with, and carries
    at most one file, which has an image type; switching the mode or the
    attachment in between changes neither. *)
Theorem widget_requests_keep_session
    (env_url : option string) (chat_error product sid language : string)
    (evs : list Widget.event) :
  Forall (widget_request_of product sid)
         (Widget.sent (Widget.run env_url chat_error evs
                         (Widget.mounted product sid language))).
Proof.
  assert (H : widget_bound product sid
                (Widget.run env_url chat_error evs
                   (Widget.mounted product sid language))).
  { unfold Widget.run.
    assert (H0 : widget_bound product sid (Widget.mounted product sid language)).
    { repeat split. constructor. }
    revert H0. generalize (Widget.mounted product sid language).
    induction evs as [|e evs IH]; intros w H0; simpl; [exact H0|].
    apply IH, widget_step_bound, H0. }
  exact (proj2 (proj2 (proj2 H))).
Qed.


End WidgetRequests.

(** ** The room-image upload *)

Section RoomUpload.

(** Of the files dropped or chosen only the first is considered: it is
    handed to the parent exactly when it has an image type and at most
    [MAX_BYTES] bytes (the limit itself included), and no other file ever
    is. *)
Theorem handleFileChange_hands_over_first_only (f g : File) (rest : list File) :
  In (ImageUpload.OnImageSelect g) (ImageUpload.handleFileChange (f :: rest))
  <-> g = f /\ startsWith (file_type f) "image/" = true
      /\ (file_size f <= 10485760)%N.
Proof.
  simpl. unfold ImageUpload.processFile, ImageUpload.MAX_BYTES.
  destruct (startsWith (file_type f) "image/"); simpl.
  - destruct (N.ltb_spec (10 * 1024 * 1024) (file_size f)) as [Hgt|Hle]; simpl.
    + split; [intros [H|[]]; discriminate | intros (_ & _ & H); lia].
    + split.
      * intros [H|[H|[]]]; [discriminate|]. injection H as <-.
        repeat split. lia.
      * intros (-> & _ & _). right. left. reflexivity.
  - split; [intros [H|[]]; discriminate | intros (_ & H & _); discriminate].
Qed.

(** A file that is not handed over is answered by exactly one alert. *)
Theorem processFile_alerts_or_hands_over (f : File) :
  acceptable_room f = false ->
  exists reason, ImageUpload.processFile f = [ImageUpload.Alert reason]
                 /\ reason <> "".
Proof.
  unfold acceptable_room, ImageUpload.processFile.
  destruct (startsWith (file_type f) "image/"); simpl;
    [destruct (ImageUpload.MAX_BYTES <? file_size f)%N; simpl|];
    intros H; try discriminate; eexists; split; reflexivity || discriminate.
Qed.

Lemma processFile_alerts_or_hands_over_witness :
  exists reason, ImageUpload.processFile manual_pdf = [ImageUpload.Alert reason]
                 /\ reason <> "".
Proof. apply processFile_alerts_or_hands_over. reflexivity. Defined.

End RoomUpload.

(** ** The marketplace *)

Section MarketplaceProperties.

Lemma items_of_entry_category (e : string * Marketplace.category_value)
    (c : string) :
  List.filter (fun item => bool_decide (Marketplace.category item = c))
              (Marketplace.items_of_entry e)
    = if bool_decide (fst e = c) then Marketplace.items_of_entry e else [].
Proof.
  unfold Marketplace.items_of_entry. destruct e as [k [ps|]]; simpl.
  2:{ destruct (bool_decide (k = c)); reflexivity. }
  induction ps as [|p ps IH]; simpl.
  - destruct (bool_decide (k = c)); reflexivity.
  - rewrite List.filter_app, IH.
    unfold Marketplace.items_of_product.
    destruct (default [] (Marketplace.models p)) as [|m ms] eqn:Hm; simpl.
    + reflexivity.
    + assert (Hf : forall l,
                List.filter (fun item => bool_decide (Marketplace.category item = c))
                            (map (Marketplace.mkItem k p) l)
                  = if bool_decide (k = c) then map (Marketplace.mkItem k p) l else []).
      { induction l as [|x l IHl]; simpl.
        - destruct (bool_decide (k = c)); reflexivity.
        - rewrite IHl. destruct (bool_decide (k = c)); reflexivity. }
      specialize (Hf ms). simpl in Hf.
      destruct (bool_decide (k = c)) eqn:Hk; simpl; [|rewrite Hf; reflexivity].
      rewrite Hf. reflexivity.
Qed.

(** Filtering the flat list by a category gives the flat list of the
    entries of the catalog under that category, in catalog order; the
    category [all] gives the whole list. *)
Theorem getFilteredProducts_by_category (c : string) (entries : Marketplace.catalog) :
  Marketplace.getFilteredProducts c (Some entries)
    = if bool_decide (c = "all")
      then Marketplace.getAllProductsArray (Some entries)
      else Marketplace.getAllProductsArray
             (Some (List.filter (fun e => bool_decide (fst e = c)) entries)).
Proof.
  unfold Marketplace.getFilteredProducts.
  destruct (bool_decide (c = "all")); [reflexivity|].
  unfold Marketplace.getAllProductsArray.
  induction entries as [|e entries IH]; simpl; [reflexivity|].
  rewrite List.filter_app, IH, items_of_entry_category.
  destruct (bool_decide (fst e = c)); reflexivity.
Qed.

(** The flat list holds exactly the models of the products of the
    categories whose value is an array: an item is in it exactly when its
    model is among the models of its product, and its product among the
    products stored under its category. A product without models
    contributes nothing. *)
Theorem getAllProductsArray_In (it : Marketplace.item) (entries : Marketplace.catalog) :
  In it (Marketplace.getAllProductsArray (Some entries))
  <-> exists ps ms,
        In (Marketplace.category it, Marketplace.Products ps) entries
        /\ In (Marketplace.item_product it) ps
        /\ Marketplace.models (Marketplace.item_product it) = Some ms
        /\ In (Marketplace.item_model it) ms.
Proof.
  unfold Marketplace.getAllProductsArray. rewrite in_flat_map. split.
  - intros ([k v] & He & Hit). unfold Marketplace.items_of_entry in Hit.
    simpl in Hit. destruct v as [ps|]; [|contradiction].
    apply in_flat_map in Hit as (p & Hp & Hit).
    unfold Marketplace.items_of_product in Hit.
    destruct (Marketplace.models p) as [ms|] eqn:Hms; simpl in Hit; [|contradiction].
    apply in_map_iff in Hit as (m & <- & Hm). simpl.
    exists ps, ms. auto.
  - intros (ps & ms & He & Hp & Hms & Hm).
    exists (Marketplace.category it, Marketplace.Products ps). split; [exact He|].
    unfold Marketplace.items_of_entry. simpl. apply in_flat_map.
    exists (Marketplace.item_product it). split; [exact Hp|].
    unfold Marketplace.items_of_product. rewrite Hms. simpl.
    apply in_map_iff. exists (Marketplace.item_model it). split; [|exact Hm].
    destruct it; reflexivity.
Qed.

End MarketplaceProperties.

(** ** Loading and retrying *)

Section Loading.

(** What the product page renders after a fetch that has run to its end
    depends on that fetch alone: the product when it succeeded, and the
    error otherwise, also when an earlier fetch had delivered a product or
    had failed. The texts of the host's exceptions are taken to be
    non-empty. *)
Theorem product_view_follows_last_fetch {B} (host_text : string)
    (rs : list (fetch_result B)) (r : fetch_result B) (s : ProductData.state B) :
  truthy host_text = true ->
  ProductData.render (ProductData.fetches host_text (rs ++ [r]) s)
    = match ProductData.getProduct r with
      | Ret data => ProductData.ProductView data
      | Throw err => ProductData.ErrorView (ProductData.message_of host_text err)
      end.
Proof.
  intros Hh. unfold ProductData.fetches. rewrite fold_left_app. simpl.
  generalize (fold_left (fun s r => ProductData.fetchProductData host_text r s) rs s).
  intros s0. unfold ProductData.fetchProductData, ProductData.fetchProductData_settled.
  destruct r as [|[] status [b|]]; simpl; unfold ProductData.render; simpl;
    rewrite ?Hh; reflexivity.
Qed.

Lemma product_view_follows_last_fetch_witness :
  ProductData.render
    (ProductData.fetches "Failed to fetch"
       [Rejected; Response true 200 (Some "CM-FF-360-BLACK")]
       ProductData.initial)
    = ProductData.ProductView "CM-FF-360-BLACK".
Proof.
  apply (product_view_follows_last_fetch "Failed to fetch" [Rejected]
           (Response true 200 (Some "CM-FF-360-BLACK")) ProductData.initial).
  reflexivity.
Defined.

Lemma marketplace_fetch_error (host_text : string)
    (r : fetch_result Marketplace.products_body) (s : Marketplace.state) :
  truthy host_text = true ->
  Marketplace.loading (Marketplace.fetchProducts host_text r s) = false
  /\ truthy_opt (Marketplace.error (Marketplace.fetchProducts host_text r s))
     = truthy_opt (Marketplace.error s) || negb (succeeded r).
Proof.
  intros Hh. unfold Marketplace.fetchProducts.
  destruct r as [|[] status [[b|b]|]]; simpl; rewrite ?Hh;
    split; try reflexivity;
    destruct (truthy_opt (Marketplace.error s)); reflexivity.
Qed.

(** The marketplace never clears its error: after one or more fetches, each
    run to its end, the product grid is rendered exactly when every one of
    them succeeded, so that a retry after a failure does not bring the grid
    back. The texts of the host's exceptions are taken to be non-empty. *)
Theorem marketplace_grid_iff_no_failure (host_text : string)
    (r : fetch_result Marketplace.products_body)
    (rs : list (fetch_result Marketplace.products_body)) :
  truthy host_text = true ->
  Marketplace.grid_shown (Marketplace.fetches host_text (r :: rs) Marketplace.initial)
    = forallb succeeded (r :: rs).
Proof.
  intros Hh.
  assert (Hgen : forall rs s,
            Marketplace.loading s = false ->
            Marketplace.grid_shown (Marketplace.fetches host_text rs s)
              = negb (truthy_opt (Marketplace.error s)) && forallb succeeded rs).
  { clear r rs. induction rs as [|r rs IH]; intros s Hl; simpl.
    - unfold Marketplace.grid_shown. rewrite Hl, andb_true_r. reflexivity.
    - destruct (marketplace_fetch_error host_text r s Hh) as [H1 H2].
      unfold Marketplace.fetches in *. simpl. rewrite (IH _ H1), H2.
      destruct (truthy_opt (Marketplace.error s)), (succeeded r); reflexivity. }
  unfold Marketplace.fetches. simpl.
  destruct (marketplace_fetch_error host_text r Marketplace.initial Hh) as [H1 H2].
  specialize (Hgen rs _ H1). unfold Marketplace.fetches in Hgen.
  rewrite Hgen, H2. simpl. destruct (succeeded r); reflexivity.
Qed.

Lemma marketplace_grid_iff_no_failure_witness :
  Marketplace.grid_shown
    (Marketplace.fetches "Failed to fetch"
       [Response false 500 None;
        Response true 200 (Some (Marketplace.Wrapped sample_catalog))]
       Marketplace.initial)
    = false.
Proof.
  rewrite marketplace_grid_iff_no_failure by reflexivity. reflexivity.
Defined.

End Loading.

(** ** The auth callback *)

Section AuthCallbackProperties.

Lemma all_url_safe_app (a b : string) :
  all_url_safe (a +:+ b) = all_url_safe a && all_url_safe b.
Proof.
  induction a as [|c a IH]; [reflexivity|].
  rewrite append_cons_l. simpl. rewrite IH, andb_assoc. reflexivity.
Qed.

Lemma encode_unit_safe (c : ascii) : all_url_safe (AuthCallback.encode_unit c) = true.
Proof. destruct c as [[] [] [] [] [] [] [] []]; vm_compute; reflexivity. Qed.

Lemma encodeURIComponent_safe (s : string) :
  all_url_safe (AuthCallback.encodeURIComponent s) = true.
Proof.
  induction s as [|c s IH]; [reflexivity|]. simpl.
  rewrite all_url_safe_app, encode_unit_safe, IH. reflexivity.
Qed.

Lemma login_redirect_not_home (origin message : string) :
  AuthCallback.login_redirect origin message <> origin +:+ "/".
Proof.
  unfold AuthCallback.login_redirect. intros H.
  apply append_inj_r in H. rewrite !append_cons_l in H. discriminate.
Qed.

(** The handler redirects to the home page of the origin exactly when the
    request has no [error] and no [error_code], has a [code], and the
    exchange of the code succeeded; an error parameter wins over a code. *)
Theorem GET_home_iff (origin : string) (q : AuthCallback.query)
    (x : AuthCallback.exchange) :
  AuthCallback.GET origin q x = origin +:+ "/"
  <-> AuthCallback.exchanges q = true /\ x = AuthCallback.Exchanged.
Proof.
  unfold AuthCallback.GET, AuthCallback.exchanges.
  destruct (truthy_opt (AuthCallback.error q) || truthy_opt (AuthCallback.error_code q));
    simpl.
  - split; [intros H; exfalso; exact (login_redirect_not_home _ _ H)|].
    intros [H _]. discriminate.
  - destruct (truthy_opt (AuthCallback.code q)); simpl.
    + destruct x as [|message|]; split; auto;
        try (intros H; exfalso; exact (login_redirect_not_home _ _ H));
        intros [_ H]; discriminate.
    + split; [intros H; exfalso; exact (login_redirect_not_home _ _ H)|].
      intros [H _]. discriminate.
Qed.

(** Every redirect of the handler stays on the origin of the request: it
    goes to the home page, or to the login page with one [error] parameter
    whose value holds only unreserved characters and percent escapes, so
    that a message of the provider cannot add a parameter or a fragment to
    the URL. *)
Theorem GET_redirect_is_escaped (origin : string) (q : AuthCallback.query)
    (x : AuthCallback.exchange) :
  exists value : string,
    all_url_safe value = true
    /\ (AuthCallback.GET origin q x = origin +:+ "/"
        \/ AuthCallback.GET origin q x = origin +:+ "/login?error=" +:+ value).
Proof.
  unfold AuthCallback.GET, AuthCallback.login_redirect.
  destruct (truthy_opt (AuthCallback.error q) || truthy_opt (AuthCallback.error_code q)).
  - eexists. split; [apply encodeURIComponent_safe|]. right. reflexivity.
  - destruct (truthy_opt (AuthCallback.code q)).
    + destruct x as [|message|].
      * exists "". split; [reflexivity|]. left. reflexivity.
      * eexists. split; [apply encodeURIComponent_safe|]. right. reflexivity.
      * eexists. split; [apply encodeURIComponent_safe|]. right. reflexivity.
    + eexists. split; [apply encodeURIComponent_safe|]. right. reflexivity.
Qed.

End AuthCallbackProperties.

(** ** What the requests carry *)

Section RequestContents.

(** The two chat clients agree on what a settled request yields: both
    return the parsed body exactly for an [ok] response whose body parses,
    and both throw otherwise; neither turns a failure into a reply. *)
Theorem chat_clients_agree (r : fetch_result chat_reply) :
  match Api.sendMessage_result r, ChatApi.sendChatMessage_result r with
  | Ret a, Ret b => a = b /\ succeeded r = true
  | Throw _, Throw _ => succeeded r = false
  | _, _ => False
  end.
Proof. destruct r as [|[] status [b|]]; simpl; auto. Qed.

End RequestContents.

(** ** Instances *)

Section Instances.

Lemma init_session_idempotent_witness :
  exists (s1 s2 : Page.state) (ls1 : LocalStorage),
    Page.init_session uuid_a (working ∅) (Page.initial "CM-FF-360-BLACK") = (Ret s1, ls1)
    /\ Page.init_session uuid_b ls1 (Page.initial "CM-FF-360-BLACK") = (Ret s2, ls1)
    /\ Page.sessionId s2 = Page.sessionId s1.
Proof. apply init_session_idempotent. reflexivity. Defined.

Lemma init_session_creates_and_persists_witness :
  exists (s1 : Page.state) (m' : gmap string string),
    Page.init_session uuid_a (working ∅) (Page.initial "CM-FF-360-BLACK")
      = (Ret s1, working m')
    /\ Page.sessionId s1 = Some uuid_a
    /\ m' !! "session_CM-FF-360-BLACK" = Some uuid_a.
Proof.
  apply (init_session_creates_and_persists uuid_a ∅ (Page.initial "CM-FF-360-BLACK")).
  - reflexivity.
  - apply lookup_empty.
Defined.

Lemma getSessionId_creates_and_persists_witness :
  exists m',
    ChatApi.getSessionId "CM-FF-360-BLACK" draw_a (Browser (working ∅))
      = (Ret "session_1700000000000_abcdefghi", Browser (working m'))
    /\ m' !! "chat_session_CM-FF-360-BLACK" = Some "session_1700000000000_abcdefghi".
Proof.
  apply (getSessionId_creates_and_persists "CM-FF-360-BLACK" draw_a ∅).
  apply lookup_empty.
Defined.

Lemma handleImageSelect_full_witness :
  Page.handleImageSelect [photo "d"] full_page
    = (Page.setUploadError (Some "Maximum 3 images allowed") full_page, None).
Proof. apply handleImageSelect_full. unfold Page.MAX_IMAGES. simpl. lia. Defined.

End Instances.

(** ** Calls outside a browser *)

Section ServerCalls.

(** C10, counterexample. Two calls of [getSessionId] outside a browser in
    the same millisecond, for which [Math.random] returns different numbers
    that agree in their first nine digits of radix 36, return the same
    identifier. *)
Lemma server_calls_can_repeat :
  ChatApi.random36 draw_a <> ChatApi.random36 draw_b
  /\ ~ server_calls_differ "CM-FF-360-BLACK" draw_a draw_b.
Proof.
  split; [discriminate|].
  unfold server_calls_differ. intros H. apply H. reflexivity.
Qed.

(** C10, amended. Outside a browser every call of [getSessionId] returns
    the identifier that [generateSessionId] makes from the clock and
    [Math.random], and touches no storage; two calls return different
    identifiers exactly when their clock readings or the random parts of
    their identifiers differ, and the same identifier when both agree. *)
Theorem getSessionId_server_differs_iff (p : string) (e1 e2 : ChatApi.entropy) :
  ChatApi.getSessionId p e1 Server = (Ret (ChatApi.generateSessionId e1), Server)
  /\ ChatApi.getSessionId p e2 Server = (Ret (ChatApi.generateSessionId e2), Server)
  /\ (ChatApi.generateSessionId e1 <> ChatApi.generateSessionId e2
      <-> ChatApi.now e1 <> ChatApi.now e2 \/ random_part e1 <> random_part e2).
Proof.
  split; [reflexivity|]. split; [reflexivity|].
  rewrite generateSessionId_eq_iff. split.
  - intros Hne.
    destruct (decide (ChatApi.now e1 = ChatApi.now e2)) as [Hn|Hn]; [|left; exact Hn].
    destruct (decide (random_part e1 = random_part e2)) as [Hr|Hr]; [|right; exact Hr].
    exfalso. apply Hne. split; assumption.
  - intros [Hn|Hr] [Hn' Hr']; contradiction.
Qed.

End ServerCalls.

(** ** Leaving and re-opening the product page *)

Section Remounting.

Lemma history_settled_fields (r : fetch_result Api.history) (w : Page.world) :
  Page.isSending (Page.page (Tab.history_settled r w)) = Page.isSending (Page.page w)
  /\ Page.sent (Tab.history_settled r w) = Page.sent w
  /\ Page.answered (Tab.history_settled r w) = Page.answered w
  /\ Page.messages (Page.page (Tab.history_settled r w))
     = match delivered_turns r with
       | [] => Page.messages (Page.page w)
       | l => match Page.sessionId (Page.page w) with
              | Some _ => l
              | None => Page.messages (Page.page w)
              end
       end.
Proof.
  unfold Tab.history_settled.
  destruct (Page.sessionId (Page.page w)) as [sid|].
  - rewrite loadConversationHistory_total.
    destruct (delivered_turns r); repeat split; reflexivity.
  - destruct (delivered_turns r); repeat split; reflexivity.
Qed.

Lemma mount_fresh (model uuid : string) (t : Tab.tab) (w : Page.world) :
  Tab.current (Tab.mount model uuid t) = Some w ->
  Page.sent w = [] /\ Page.answered w = 0
  /\ Page.isSending (Page.page w) = false /\ Page.messages (Page.page w) = [].
Proof.
  unfold Tab.mount, Page.init_session.
  destruct (truthy model) eqn:Hm; simpl; rewrite Hm; simpl.
  2:{ intros [= <-]. repeat split. }
  destruct (getItem ("session_" +:+ model) (Tab.storage t)) as [sid|x]; simpl.
  2:{ discriminate. }
  destruct (truthy_opt sid); simpl.
  - intros [= <-]. repeat split.
  - destruct (setItem ("session_" +:+ model) uuid (Tab.storage t)) as [[u|x] ls'];
      simpl; [|discriminate].
    intros [= <-]. repeat split.
Qed.

Lemma tab_step_serial (e : Tab.event) (t : Tab.tab) :
  mount_serial t -> mount_serial (Tab.step e t).
Proof.
  unfold mount_serial. intros H.
  destruct e as [model uuid| |e'|r|]; simpl.
  - destruct (Tab.current (Tab.mount model uuid (Tab.unmount t))) as [w|] eqn:E;
      [|exact I].
    apply mount_fresh in E as (Hs & Ha & Hi & _).
    unfold page_serial. rewrite Hs, Ha, Hi. reflexivity.
  - unfold Tab.unmount. destruct (Tab.current t) eqn:E; simpl; [exact I|].
    rewrite E. exact I.
  - destruct (Tab.current t) as [w|] eqn:E; simpl; [|rewrite E; exact I].
    apply page_step_serial, H.
  - destruct (Tab.current t) as [w|] eqn:E; simpl; [|rewrite E; exact I].
    destruct (history_settled_fields r w) as (Hi & Hs & Ha & _).
    unfold page_serial in *. rewrite Hi, Hs, Ha. exact H.
  - exact H.
Qed.

Lemma tab_run_serial (evs : list Tab.event) (t : Tab.tab) :
  mount_serial t -> mount_serial (Tab.run evs t).
Proof.
  unfold Tab.run. revert t.
  induction evs as [|e evs IH]; intros t H; simpl; [exact H|].
  apply IH, tab_step_serial, H.
Qed.

(** C7, counterexample. A message is sent from the product page, the page
    is left before the reply and opened again, and a second message is
    sent: the re-opened page finds the stored session identifier and starts
    with [isSending] false, and two requests of that session are open. *)
Lemma serialized_per_session_fails : ~ serialized_per_session.
Proof.
  intros H. specialize (H reopened_while_sending uuid_a).
  vm_compute in H. lia.
Qed.

(** C7, amended. In a tab in which the product page is opened, left and
    opened again any number of times, the page that is mounted has at most
    one chat request of its own open; while it has one, its send handler
    issues nothing and its send button is disabled, and an event that issues
    a request finds none of its own open. The same holds for a mounted chat
    widget, whose input and submit controls are disabled while its request
    is open. *)
Theorem chat_requests_serialized_per_mount
    (ls : LocalStorage) (evs : list Tab.event)
    (env_url : option string) (chat_error product sid language : string)
    (wevs : list Widget.event) :
  let t := Tab.run evs (Tab.start ls) in
  let v := Widget.run env_url chat_error wevs (Widget.mounted product sid language) in
  (forall w : Page.world,
      Tab.current t = Some w ->
      Page.outstanding w <= 1
      /\ (Page.outstanding w = 1 ->
            snd (Page.handleSendMessage (Page.page w)) = None
            /\ Page.send_disabled (Page.page w) = true)
      /\ (forall e : Page.event,
            length (Page.sent (Page.step e w)) <> length (Page.sent w) ->
            Page.outstanding w = 0))
  /\ (Widget.outstanding v <= 1
      /\ (Widget.outstanding v = 1 ->
            Widget.submit_disabled v = true /\ Widget.textarea_disabled v = true)
      /\ (forall e : Widget.event,
            length (Widget.sent (Widget.step env_url chat_error e v))
              <> length (Widget.sent v) ->
            Widget.outstanding v = 0)).
Proof.
  intros t v. split.
  - intros w Hcur.
    assert (Hw : page_serial w).
    { pose proof (tab_run_serial evs (Tab.start ls) I) as H.
      unfold mount_serial in H. fold t in H. rewrite Hcur in H. exact H. }
    unfold page_serial in Hw. unfold Page.outstanding.
    split; [|split].
    + destruct (Page.isSending (Page.page w)); lia.
    + intros Hone. apply page_sending_blocks.
      destruct (Page.isSending (Page.page w)); [reflexivity|lia].
    + intros e He. apply page_issue_only_when_idle in He.
      rewrite He in Hw. lia.
  - assert (Hv : widget_serial v).
    { apply widget_run_serial. reflexivity. }
    unfold widget_serial in Hv. unfold Widget.outstanding.
    split; [|split].
    + destruct (Widget.isLoading (Widget.widget v)); lia.
    + intros Hone. unfold Widget.submit_disabled, Widget.textarea_disabled.
      destruct (Widget.isLoading (Widget.widget v)); [split; reflexivity|lia].
    + intros e He. apply widget_issue_only_when_idle in He.
      rewrite He in Hv. lia.
Qed.

Lemma chat_requests_serialized_per_mount_witness :
  exists w : Page.world,
    Tab.current (Tab.run typed_during_reply (Tab.start (working ∅))) = Some w
    /\ Page.outstanding w = 1
    /\ Page.inputMessage (Page.page w) = "again"
    /\ snd (Page.handleSendMessage (Page.page w)) = None.
Proof.
  destruct (Tab.current (Tab.run typed_during_reply (Tab.start (working ∅))))
    as [w|] eqn:E; [|vm_compute in E; discriminate].
  exists w. split; [reflexivity|].
  assert (Hone : Page.outstanding w = 1 /\ Page.inputMessage (Page.page w) = "again").
  { vm_compute in E. injection E as <-. split; reflexivity. }
  destruct Hone as [Hone Hin]. split; [exact Hone|]. split; [exact Hin|].
  destruct (chat_requests_serialized_per_mount (working ∅) typed_during_reply
              None "" "" "" "" []) as [Hpage _].
  destruct (Hpage w E) as (_ & Hblocked & _).
  exact (proj1 (Hblocked Hone)).
Defined.

End Remounting.

(** ** The turns that the page appends *)

Section AppendedTurns.

Lemma tab_step_dialogue (e : Tab.event) (t : Tab.tab) :
  brings_no_history e -> mount_dialogue t -> mount_dialogue (Tab.step e t).
Proof.
  unfold mount_dialogue. intros Hq H.
  destruct e as [model uuid| |e'|r|]; simpl.
  - destruct (Tab.current (Tab.mount model uuid (Tab.unmount t))) as [w|] eqn:E;
      [|exact I].
    apply mount_fresh in E as (Hs & Ha & Hi & Hm).
    unfold dialogue, page_serial. rewrite Hs, Ha, Hi, Hm.
    split; [reflexivity|]. split; [reflexivity|constructor].
  - unfold Tab.unmount. destruct (Tab.current t) eqn:E; simpl; [exact I|].
    rewrite E. exact I.
  - destruct (Tab.current t) as [w|] eqn:E; simpl; [|rewrite E; exact I].
    apply page_step_dialogue, H.
  - destruct (Tab.current t) as [w|] eqn:E; simpl; [|rewrite E; exact I].
    destruct (history_settled_fields r w) as (Hi & Hs & Ha & Hm).
    simpl in Hq. rewrite Hq in Hm.
    unfold dialogue, page_serial in *. rewrite Hi, Hs, Ha, Hm. exact H.
  - exact H.
Qed.

(** As long as no history reply brings stored turns (a new session, an
    unsuccessful or an empty reply), the messages of the mounted product
    page are user and assistant turns in alternation, starting with the
    user: one pair for every request of the page that has settled, by a
    reply or by a failure, and one more user turn while a request is open.
    This holds through leaving and re-opening the page. *)
Theorem page_conversation_alternates_without_history
    (ls : LocalStorage) (evs : list Tab.event) (w : Page.world) :
  Forall brings_no_history evs ->
  Tab.current (Tab.run evs (Tab.start ls)) = Some w ->
  map role (Page.messages (Page.page w))
    = expected_roles (Page.answered w) (Page.isSending (Page.page w)).
Proof.
  intros Hq Hcur.
  assert (H : mount_dialogue (Tab.run evs (Tab.start ls))).
  { clear Hcur w. unfold Tab.run.
    assert (H0 : mount_dialogue (Tab.start ls)) by exact I.
    revert H0. generalize (Tab.start ls).
    induction Hq as [|e evs He Hevs IH]; intros t H0; simpl; [exact H0|].
    apply IH, tab_step_dialogue; assumption. }
  unfold mount_dialogue in H. rewrite Hcur in H. exact (proj1 (proj2 H)).
Qed.

Lemma page_conversation_alternates_without_history_witness :
  exists w : Page.world,
    Tab.current (Tab.run typed_during_reply (Tab.start (working ∅))) = Some w
    /\ map role (Page.messages (Page.page w)) = ["user"]
    /\ Page.answered w = 0 /\ Page.isSending (Page.page w) = true.
Proof.
  destruct (Tab.current (Tab.run typed_during_reply (Tab.start (working ∅))))
    as [w|] eqn:E; [|vm_compute in E; discriminate].
  exists w. split; [reflexivity|].
  assert (Hw : Page.answered w = 0 /\ Page.isSending (Page.page w) = true).
  { vm_compute in E. injection E as <-. split; reflexivity. }
  destruct Hw as [Ha Hs]. split; [|split; assumption].
  rewrite (page_conversation_alternates_without_history (working ∅)
             typed_during_reply w).
  - rewrite Ha, Hs. reflexivity.
  - repeat constructor.
  - exact E.
Defined.

(** A send that the page accepts appends exactly one turn, of the user,
    and its content is never empty: the typed text without its surrounding
    white space, or, for a submission of images without text, a placeholder
    that names the number of images. The turn keeps the previews of the
    images sent. *)
Theorem handleSendMessage_appends_user_turn (s s1 : Page.state) (rq : request) :
  Page.handleSendMessage s = (s1, Some rq) ->
  exists c : string,
    Page.messages s1 = Page.messages s ++ [mkTurn "user" c (Page.imagePreviews s)]
    /\ c <> ""
    /\ c = (if truthy (trim (Page.inputMessage s)) then trim (Page.inputMessage s)
            else "📷 [" +:+ string_of_N (N.of_nat (length (Page.selectedImages s)))
                 +:+ " image(s)]").
Proof.
  unfold Page.handleSendMessage.
  destruct (Page.send_blocked s); [discriminate|]. intros [= <- _].
  eexists. split; [reflexivity|]. split; [apply shown_content_not_empty|].
  reflexivity.
Qed.

Lemma handleSendMessage_appends_user_turn_witness :
  exists c : string,
    Page.messages (fst (Page.handleSendMessage image_only))
      = [mkTurn "user" c []]
    /\ c <> ""
    /\ c = "📷 [1 image(s)]".
Proof.
  destruct (Page.handleSendMessage image_only) as [s1 [rq|]] eqn:E;
    [|vm_compute in E; discriminate].
  destruct (handleSendMessage_appends_user_turn image_only s1 rq E)
    as (c & Hm & Hne & Hc).
  exists c. split; [exact Hm|]. split; [exact Hne|]. rewrite Hc. reflexivity.
Defined.

End AppendedTurns.

(** ** The text that a request carries *)

Section CarriedText.

Lemma trimStart_decompose (s : string) :
  exists a, s = a +:+ trimStart s /\ all_white_space a = true.
Proof.
  induction s as [|c s IH]; simpl.
  - exists "". split; reflexivity.
  - destruct (is_white_space c) eqn:Hc.
    + destruct IH as (a & Hs & Ha). exists (String c a).
      rewrite append_cons_l, <- Hs. simpl. rewrite Hc, Ha. split; reflexivity.
    + exists "". split; reflexivity.
Qed.

Lemma trimEnd_decompose (s : string) :
  exists b, s = trimEnd s +:+ b /\ all_white_space b = true.
Proof.
  induction s as [|c s IH]; simpl.
  - exists "". split; reflexivity.
  - destruct IH as (b & Hs & Hb).
    destruct (trimEnd s) as [|d t] eqn:E.
    + rewrite append_nil_l in Hs. subst b.
      destruct (is_white_space c) eqn:Hc.
      * exists (String c s). rewrite append_nil_l. simpl. rewrite Hc, Hb.
        split; reflexivity.
      * exists s. rewrite append_cons_l, append_nil_l. split; [reflexivity|exact Hb].
    + exists b. rewrite append_cons_l, <- Hs. split; [reflexivity|exact Hb].
Qed.

Lemma trimEnd_ends_visible (s : string) : ends_visible (trimEnd s).
Proof.
  induction s as [|c s IH]; simpl; [exact I|].
  destruct (trimEnd s) as [|d t] eqn:E.
  - destruct (is_white_space c) eqn:Hc; simpl; [exact I|exact Hc].
  - exact IH.
Qed.

(** [trim] removes the white space around a text and nothing else. *)
Lemma trim_decompose (s : string) :
  exists a b, s = a +:+ trim s +:+ b
              /\ all_white_space a = true /\ all_white_space b = true
              /\ starts_visible (trim s) /\ ends_visible (trim s).
Proof.
  destruct (trimStart_decompose s) as (a & Hs & Ha).
  destruct (trimEnd_decompose (trimStart s)) as (b & Ht & Hb).
  exists a, b. unfold trim. rewrite <- Ht.
  repeat split; try assumption.
  - apply trimEnd_starts_visible, trimStart_starts_visible.
  - apply trimEnd_ends_visible.
Qed.

(** The request that the page issues on a send, and the request that the
    widget issues on a submit, carry as their message the text typed in the
    input at that moment with its leading and trailing white space removed
    and nothing else changed. *)
Theorem requests_carry_typed_text :
  (forall (s s1 : Page.state) (rq : request),
      Page.handleSendMessage s = (s1, Some rq) ->
      carries_typed_text (Page.inputMessage s) rq)
  /\ (forall (env_url : option string) (w : Widget.world) (rq : request),
        Widget.sent (Widget.submit env_url w) = Widget.sent w ++ [rq] ->
        carries_typed_text (Widget.message (Widget.input w)) rq).
Proof.
  split.
  - intros s s1 rq. unfold Page.handleSendMessage.
    destruct (Page.send_blocked s); [discriminate|]. intros [= _ <-].
    destruct (trim_decompose (Page.inputMessage s)) as (a & b & H1 & H2 & H3 & H4 & H5).
    exists a, (trim (Page.inputMessage s)), b.
    repeat split; try assumption. apply sendMessage_message.
  - intros env_url w rq. unfold Widget.submit, Widget.handleSubmit.
    destruct (negb _ && negb _); simpl.
    { intros H. rewrite <- (app_nil_r (Widget.sent w)) in H at 1.
      apply app_inv_head in H. discriminate. }
    unfold Widget.handleSendMessage. cbn [Widget.p_message Widget.p_image].
    destruct (negb _ && negb _); simpl.
    { intros H. rewrite <- (app_nil_r (Widget.sent w)) in H at 1.
      apply app_inv_head in H. discriminate. }
    intros H. apply app_inv_head in H. injection H as <-.
    destruct (trim_decompose (Widget.message (Widget.input w)))
      as (a & b & H1 & H2 & H3 & H4 & H5).
    exists a, (trim (Widget.message (Widget.input w))), b.
    repeat split; try assumption.
    unfold ChatApi.sendChatMessage_request. cbn [req_body].
    destruct (sendChatMessage_form_spec
                (ChatApi.mkParams (Widget.product_id (Widget.widget w))
                   (trim (Widget.message (Widget.input w)))
                   (Widget.sessionId (Widget.widget w))
                   (Some (Widget.language (Widget.widget w)))
                   (Some (Widget.mode (Widget.widget w)))
                   (Some (match Widget.selectedImage (Widget.input w) with
                          | Some f => [f] | None => [] end)))) as [Hform _].
    rewrite Hform. rewrite getAll_app, getAll_files_other by discriminate.
    reflexivity.
Qed.

Lemma requests_carry_typed_text_witness :
  exists rq : request,
    snd (Page.handleSendMessage typed_with_spaces) = Some rq
    /\ getAll (req_body rq) "message" = [FText "what is the warranty?"]
    /\ carries_typed_text "  what is the warranty? " rq.
Proof.
  destruct (Page.handleSendMessage typed_with_spaces) as [s1 [rq|]] eqn:E;
    [|vm_compute in E; discriminate].
  exists rq. split; [reflexivity|]. split.
  - vm_compute in E. injection E as _ <-. reflexivity.
  - exact (proj1 requests_carry_typed_text typed_with_spaces s1 rq E).
Defined.

End CarriedText.
